(** * stat.c: a Solaris rendition of the Linux stat command

    A shallow embedding of [stat.c] and the properties of its output.

    Conventions of the embedding.
    - [mode_t], [uid_t], [dev_t], [time_t] and [int] values are integers
      of [Z]; the casts the program writes ([(int)], and the implicit
      conversion of [%x] and [%o] to [unsigned int]) are written out as
      wrap-around modulo [2^32], the ILP32 model the program is compiled
      for by [cc -o stat stat.c].
    - C strings are [string]s; the one place where the program prints a
      buffer it has not terminated (the [readlink] target) keeps the
      buffer's earlier contents in the model.
    - [printf] and [perror] append to a trace of events, system calls are
      recorded in the same trace, and the global buffers [atime_str],
      [mtime_str], [ctime_str] and [errno] are an explicit state.
    - What the C library does on its own account is part of the model:
      [perror] may leave another value in [errno] than the one it found,
      and [getopt_long] writes a diagnostic for an option it does not
      know. *)

From Stdlib Require Import ZArith List Bool Lia.
From Stdlib Require Import Strings.String Strings.Ascii.
Import ListNotations.

Open Scope string_scope.
Open Scope Z_scope.

(** ** Constants of the Solaris headers *)

Module Sys.
(** <sys/stat.h> *)
Definition S_IFMT   : Z := 0xF000.
Definition S_IAMB   : Z := 0x1FF.
Definition S_IFIFO  : Z := 0x1000.
Definition S_IFCHR  : Z := 0x2000.
Definition S_IFDIR  : Z := 0x4000.
Definition S_IFBLK  : Z := 0x6000.
Definition S_IFREG  : Z := 0x8000.
Definition S_IFLNK  : Z := 0xA000.
Definition S_IFSOCK : Z := 0xC000.
Definition S_IFDOOR : Z := 0xD000.
Definition S_IFPORT : Z := 0xE000.
Definition S_ISUID  : Z := 0x800.
Definition S_ISGID  : Z := 0x400.
Definition S_ISVTX  : Z := 0x200.
Definition S_IRUSR  : Z := 0x100.
Definition S_IWUSR  : Z := 0x080.
Definition S_IXUSR  : Z := 0x040.
Definition S_IRGRP  : Z := 0x020.
Definition S_IWGRP  : Z := 0x010.
Definition S_IXGRP  : Z := 0x008.
Definition S_IROTH  : Z := 0x004.
Definition S_IWOTH  : Z := 0x002.
Definition S_IXOTH  : Z := 0x001.
(** <sys/errno.h> *)
Definition ENOENT : Z := 2.
Definition EACCES : Z := 13.
Definition EBADF  : Z := 9.
Definition EINVAL : Z := 22.
(** <sys/param.h> *)
Definition MAXPATHLEN : nat := 1024.
End Sys.
Import Sys.

(** ** Characters and the conversions of printf *)

Definition NUL : ascii := ascii_of_nat 0.
Definition TAB : string := String (ascii_of_nat 9) "".
Definition NL  : string := String (ascii_of_nat 10) "".

(** A C condition: any non-zero integer is true. *)
Definition c_true (z : Z) : bool := negb (z =? 0).

(** [(int) z] and the conversion to [unsigned int]. *)
Definition cast_uint (z : Z) : Z := z mod 2 ^ 32.
Definition cast_int (z : Z) : Z := (z + 2 ^ 31) mod 2 ^ 32 - 2 ^ 31.

(** The digit of value [d], [0 <= d < 16], in lower case as [%x] has it. *)
Definition digit_char (d : Z) : ascii :=
  if d <? 10 then ascii_of_nat (48 + Z.to_nat d)
  else ascii_of_nat (87 + Z.to_nat d).

Fixpoint digits_aux (base : Z) (fuel : nat) (n : Z) (acc : string) : string :=
  let acc' := String (digit_char (n mod base)) acc in
  match fuel with
  | O => acc'
  | S f => if n / base =? 0 then acc' else digits_aux base f (n / base) acc'
  end.

(** The digits of [n >= 0] in [base]; the binary length of [n] bounds the
    number of digits. *)
Definition unsigned_digits (base n : Z) : string :=
  digits_aux base (Z.to_nat (Z.log2 n)) n "".

Fixpoint replicate (n : nat) (c : ascii) : string :=
  match n with
  | O => ""
  | S k => String c (replicate k c)
  end.

(** Field width: right-justified with [c] ([%5d], [%04o], [%8s]) and
    left-justified with blanks ([%-10lld]). *)
Definition pad_left (c : ascii) (w : nat) (s : string) : string :=
  replicate (w - String.length s) c ++ s.
Definition pad_right (w : nat) (s : string) : string :=
  s ++ replicate (w - String.length s) " "%char.

(** [%d] and [%lld]. *)
Definition fmt_d (n : Z) : string :=
  if n <? 0 then "-" ++ unsigned_digits 10 (- n) else unsigned_digits 10 n.
(** [%x] and [%o] of an [unsigned int]. *)
Definition fmt_x (n : Z) : string := unsigned_digits 16 (cast_uint n).
Definition fmt_o (n : Z) : string := unsigned_digits 8 (cast_uint n).

(** ** The helpers on [st_mode] *)

Definition is_device_type (st_mode : Z) : bool :=
  let t := Z.land st_mode S_IFMT in
  if t =? S_IFCHR then true
  else if t =? S_IFBLK then true
  else false.

Definition is_symlink (st_mode : Z) : bool :=
  Z.land st_mode S_IFMT =? S_IFLNK.

Definition file_type (st_mode : Z) : string :=
  let t := Z.land st_mode S_IFMT in
  if t =? S_IFIFO then "named fifo"
  else if t =? S_IFCHR then "character device"
  else if t =? S_IFDIR then "directory"
  else if t =? S_IFBLK then "block device"
  else if t =? S_IFREG then "regular file"
  else if t =? S_IFLNK then "symbolic link"
  else if t =? S_IFSOCK then "socket"
  else if t =? S_IFDOOR then "door"
  else if t =? S_IFPORT then "event port"
  else "<unknown>".

Definition file_type_char (st_mode : Z) : ascii :=
  let t := Z.land st_mode S_IFMT in
  if t =? S_IFIFO then "p"%char
  else if t =? S_IFCHR then "c"%char
  else if t =? S_IFDIR then "d"%char
  else if t =? S_IFBLK then "b"%char
  else if t =? S_IFREG then "-"%char
  else if t =? S_IFLNK then "l"%char
  else if t =? S_IFSOCK then "s"%char
  else if t =? S_IFDOOR then "D"%char
  else if t =? S_IFPORT then "P"%char
  else "?"%char.

(** The three static buffers [mode_str] are distinct objects, one per
    function, so each call yields its own three characters. *)
Definition str3 (a b c : ascii) : string := String a (String b (String c "")).

Definition user_perms (st_mode : Z) : string :=
  str3 (if c_true (Z.land st_mode S_IRUSR) then "r"%char else "-"%char)
       (if c_true (Z.land st_mode S_IWUSR) then "w"%char else "-"%char)
       (if c_true (Z.land st_mode S_ISUID)
        then (if c_true (Z.land st_mode S_IXUSR) then "s"%char else "S"%char)
        else (if c_true (Z.land st_mode S_IXUSR) then "x"%char else "-"%char)).

Definition group_perms (st_mode : Z) : string :=
  str3 (if c_true (Z.land st_mode S_IRGRP) then "r"%char else "-"%char)
       (if c_true (Z.land st_mode S_IWGRP) then "w"%char else "-"%char)
       (if c_true (Z.land st_mode S_ISGID)
        then (if c_true (Z.land st_mode S_IXGRP) then "s"%char else "S"%char)
        else (if c_true (Z.land st_mode S_IXGRP) then "x"%char else "-"%char)).

Definition other_perms (st_mode : Z) : string :=
  str3 (if c_true (Z.land st_mode S_IROTH) then "r"%char else "-"%char)
       (if c_true (Z.land st_mode S_IWOTH) then "w"%char else "-"%char)
       (if c_true (Z.land st_mode S_IXOTH) then "x"%char else "-"%char).

(** The ten characters between [/] and [)] of the permissions line:
    [%c%s%s%s] of [decode_permissions]. *)
Definition symbolic_mode (st_mode : Z) : string :=
  String (file_type_char st_mode)
         (user_perms st_mode ++ group_perms st_mode ++ other_perms st_mode).

(** ** The operating system and the C library

    What the program asks of its environment: the two metadata queries,
    [readlink], the identity databases, the time zone rules, the text of
    an error number and the [major]/[minor] macros of <sys/mkdev.h>. *)

Record struct_stat : Type := {
  st_mode : Z; st_uid : Z; st_gid : Z;
  st_size : Z; st_blocks : Z; st_blksize : Z;
  st_dev : Z; st_rdev : Z; st_ino : Z; st_nlink : Z;
  st_atime : Z; st_mtime : Z; st_ctime : Z
}.

Record struct_tm : Type := {
  tm_sec : Z; tm_min : Z; tm_hour : Z; tm_mday : Z; tm_mon : Z;
  tm_year : Z; tm_wday : Z; tm_yday : Z; tm_isdst : Z
}.

(** The outcome of a system call: its result, or the value it leaves in
    [errno] when it returns -1. *)
Inductive sysret (A : Type) : Type :=
| Ok (a : A)
| Err (code : Z).
Arguments Ok {A} a.
Arguments Err {A} code.

Record world : Type := {
  sys_stat : string -> sysret struct_stat;
  sys_lstat : string -> sysret struct_stat;
  (** the contents of the link, which [readlink] copies out unterminated *)
  sys_readlink : string -> sysret string;
  (** what the memory at [target] holds when [main] reaches it *)
  stack_junk : string;
  (** the passwd and group entries: the buffer that [getpwuid_r] and
      [getgrgid_r] fill starts with the name of the entry found *)
  pw_entry : Z -> option string;
  gr_entry : Z -> option string;
  localtime_r : Z -> struct_tm;
  (** seconds west of UTC of standard and of daylight saving time *)
  timezone : Z;
  altzone : Z;
  strerror : Z -> string;
  (** the value that [perror] leaves in [errno], given the one it found:
      the same when all goes well, another when its own writing fails *)
  perror_errno : Z -> Z;
  (** the diagnostic of [getopt_long] for an option character that is
      not among the options of the program *)
  illegal_option : ascii -> string;
  major : Z -> Z;
  minor : Z -> Z
}.

(** ** State, trace and the monad of the program *)

Inductive event : Type :=
| Stdout (text : string)
| Stderr (text : string)
| Call_stat (path : string)
| Call_lstat (path : string)
| Call_readlink (path : string).

(** The objects that outlive a call: [errno], the three global
    timestamp buffers, and the memory of the array [target] of [main],
    which is the same memory at every turn of the loop. *)
Record memory : Type := {
  errno : Z;
  atime_str : string;
  mtime_str : string;
  ctime_str : string;
  target : string
}.

(** Objects of static storage start out zeroed; [target] does not. *)
Definition initial (w : world) : memory :=
  {| errno := 0; atime_str := ""; mtime_str := ""; ctime_str := "";
     target := stack_junk w |}.

Definition M (A : Type) : Type := memory -> A * memory * list event.

Definition ret {A : Type} (a : A) : M A := fun g => (a, g, []).

Definition bind {A B : Type} (m : M A) (k : A -> M B) : M B :=
  fun g =>
    let '(a, g1, t1) := m g in
    let '(b, g2, t2) := k a g1 in
    (b, g2, (t1 ++ t2)%list).

Notation "x <- m ;; k" := (bind m (fun x => k))
  (at level 61, m at next level, right associativity).
Notation "m ;; k" := (bind m (fun _ => k))
  (at level 61, right associativity).

Definition printf (text : string) : M unit := fun g => (tt, g, [Stdout text]).

Definition set_errno (e : Z) (g : memory) : memory :=
  {| errno := e; atime_str := atime_str g;
     mtime_str := mtime_str g; ctime_str := ctime_str g;
     target := target g |}.

(** [perror] writes the message and the text of [errno] to the error
    stream; what it leaves in [errno] is for the library to say. *)
Definition perror (w : world) (msg : string) : M unit :=
  fun g => (tt, set_errno (perror_errno w (errno g)) g,
            [Stderr (msg ++ ": " ++ strerror w (errno g) ++ NL)]).

Definition get_errno : M Z := fun g => (errno g, g, []).

Definition set_target (t : string) (g : memory) : memory :=
  {| errno := errno g; atime_str := atime_str g;
     mtime_str := mtime_str g; ctime_str := ctime_str g;
     target := t |}.

(** [stat(path, &finfo)] and [lstat(path, &finfo)]: [Some finfo] stands
    for the return value 0 with [finfo] filled in, [None] for -1. *)
Definition stat (w : world) (path : string) : M (option struct_stat) :=
  fun g =>
    match sys_stat w path with
    | Ok fi => (Some fi, g, [Call_stat path])
    | Err e => (None, set_errno e g, [Call_stat path])
    end.

Definition lstat (w : world) (path : string) : M (option struct_stat) :=
  fun g =>
    match sys_lstat w path with
    | Ok fi => (Some fi, g, [Call_lstat path])
    | Err e => (None, set_errno e g, [Call_lstat path])
    end.

Fixpoint take (n : nat) (s : string) : string :=
  match n, s with
  | S k, String c r => String c (take k r)
  | _, _ => ""
  end.

Fixpoint drop (n : nat) (s : string) : string :=
  match n, s with
  | S k, String _ r => drop k r
  | _, _ => s
  end.

(** What [%s] prints of the memory [mem]: the characters before the
    first NUL. *)
Fixpoint cstr (mem : string) : string :=
  match mem with
  | "" => ""
  | String c r => if Ascii.eqb c NUL then "" else String c (cstr r)
  end.

(** [readlink(path, target, bufsiz)]: the number of bytes placed in
    [target], or -1.  At most [bufsiz] bytes are written over what the
    memory held, and no terminator is added. *)
Definition readlink (w : world) (path : string) (bufsiz : nat) : M Z :=
  fun g =>
    match sys_readlink w path with
    | Ok l =>
        let written := take bufsiz l in
        (Z.of_nat (String.length written),
         set_target (written ++ drop (String.length written) (target g)) g,
         [Call_readlink path])
    | Err e => (-1, set_errno e g, [Call_readlink path])
    end.

(** ** usage *)

Definition usage_text (exe : string) : string :=
  "usage:" ++ NL ++ NL ++
  "  " ++ exe ++ " {options} <path> {<path> ..}" ++ NL ++ NL ++
  " options:" ++ NL ++ NL ++
  "  -h/--help            display this help and exit" ++ NL ++
  "  -L/--dereference     follow symlinks" ++ NL ++
  NL.

Definition usage (exe : string) : M unit := printf (usage_text exe).

(** ** Names of users and groups *)

Definition get_uid_string (w : world) (the_uid : Z) : string :=
  match pw_entry w the_uid with
  | Some uid_str => uid_str
  | None => "<unknown>"
  end.

Definition get_gid_string (w : world) (the_gid : Z) : string :=
  match gr_entry w the_gid with
  | Some gid_str => gid_str
  | None => "<unknown>"
  end.

(** ** The permissions line *)

(** [%04o] of [(int)(st_mode & S_IAMB)]. *)
Definition octal_field (st_mode : Z) : string :=
  pad_left "0" 4 (fmt_o (cast_int (Z.land st_mode S_IAMB))).

(** [(%5d/%8s)] of an id and its name. *)
Definition id_field (id : Z) (name : string) : string :=
  "(" ++ pad_left " " 5 (fmt_d (cast_int id)) ++ "/" ++ pad_left " " 8 name ++ ")".

Definition permissions_line (w : world) (finfo : struct_stat) : string :=
  "Access: (" ++ octal_field (st_mode finfo) ++ "/" ++
  String (file_type_char (st_mode finfo))
         (user_perms (st_mode finfo) ++
          group_perms (st_mode finfo) ++
          other_perms (st_mode finfo)) ++
  ")  Uid: " ++ id_field (st_uid finfo) (get_uid_string w (st_uid finfo)) ++
  "   Gid: " ++ id_field (st_gid finfo) (get_gid_string w (st_gid finfo)) ++
  NL.

Definition decode_permissions (w : world) (finfo : struct_stat) : M unit :=
  printf (permissions_line w finfo).

(** ** Timestamps *)

Definition two_digits (n : Z) : string := pad_left "0" 2 (fmt_d n).

(** One conversion specification of [strftime], for the directives the
    program uses.  [%z] takes the offset from [timezone] or [altzone] by
    the sign of [tm_isdst] and yields no characters when it is negative. *)
Definition conversion (w : world) (c : ascii) (t : struct_tm) : string :=
  if Ascii.eqb c "Y" then fmt_d (tm_year t + 1900)
  else if Ascii.eqb c "m" then two_digits (tm_mon t + 1)
  else if Ascii.eqb c "d" then two_digits (tm_mday t)
  else if Ascii.eqb c "H" then two_digits (tm_hour t)
  else if Ascii.eqb c "M" then two_digits (tm_min t)
  else if Ascii.eqb c "S" then two_digits (tm_sec t)
  else if Ascii.eqb c "z" then
    if tm_isdst t <? 0 then ""
    else
      let east := - (if 0 <? tm_isdst t then altzone w else timezone w) in
      (if east <? 0 then "-" else "+") ++
      two_digits (Z.abs east / 3600) ++ two_digits (Z.abs east / 60 mod 60)
  else if Ascii.eqb c "%" then "%"
  else "".

Fixpoint expand (w : world) (format : string) (t : struct_tm) : string :=
  match format with
  | "" => ""
  | String c rest =>
      if Ascii.eqb c "%" then
        match rest with
        | "" => ""
        | String d rest' => conversion w d t ++ expand w rest' t
        end
      else String c (expand w rest t)
  end.

(** [strftime(s, maxsize, format, t)] as the new contents of [s]: the
    expansion when it fits with its terminator; otherwise the call
    returns 0 and the model leaves [s] as it was. *)
Definition strftime (w : world) (s : string) (maxsize : nat)
           (format : string) (t : struct_tm) : string :=
  let r := expand w format t in
  if (String.length r <? maxsize)%nat then r else s.

Definition time_format : string := "%Y-%m-%d %H:%M:%S%z".

Definition format_times (w : world) (finfo : struct_stat) : M unit :=
  fun g =>
    let a := strftime w (atime_str g) 32 time_format (localtime_r w (st_atime finfo)) in
    let m := strftime w (mtime_str g) 32 time_format (localtime_r w (st_mtime finfo)) in
    let c := strftime w (ctime_str g) 32 time_format (localtime_r w (st_ctime finfo)) in
    (tt,
     {| errno := errno g; atime_str := a; mtime_str := m; ctime_str := c;
        target := target g |},
     []).

(** The three lines that [main] prints from the global buffers. *)
Definition times_text (g : memory) : string :=
  "Access: " ++ atime_str g ++ NL ++
  "Modify: " ++ mtime_str g ++ NL ++
  "Change: " ++ ctime_str g ++ NL.

Definition print_times : M unit := fun g => (tt, g, [Stdout (times_text g)]).

(** ** main *)

Definition identity_line (path : string) : string :=
  "  File: `" ++ path ++ "'" ++ NL.
Definition identity_line_link (path shown : string) : string :=
  "  File: `" ++ path ++ "' -> `" ++ shown ++ "'" ++ NL.
Definition identity_line_unreadable (path : string) : string :=
  "  File: `" ++ path ++ "' -> <unable to read target>" ++ NL.

Definition print_target : M string := fun g => (cstr (target g), g, []).

Definition size_text (finfo : struct_stat) : string :=
  "  Size: " ++ pad_right 10 (fmt_d (st_size finfo)) ++ TAB ++
  "Blocks: " ++ pad_right 10 (fmt_d (st_blocks finfo)) ++
  " IO Block: " ++ fmt_d (st_blksize finfo) ++
  " " ++ file_type (st_mode finfo) ++ NL ++
  "Device: " ++ fmt_x (st_dev finfo) ++ "h/" ++ fmt_d (cast_int (st_dev finfo)) ++ "d" ++
  " Inode: " ++ pad_right 10 (fmt_d (st_ino finfo)) ++
  " Links: " ++ fmt_d (st_nlink finfo).

Definition device_text (w : world) (finfo : struct_stat) : string :=
  " Device type: " ++ fmt_d (cast_int (major w (st_rdev finfo))) ++ "," ++
  fmt_d (cast_int (minor w (st_rdev finfo))) ++ NL.

(** The body of the [while] loop of [main] for [argv[argn]], from the
    call of [stat_fn] to the assignment of [rc]. *)
Definition stat_one (w : world) (stat_fn : string -> M (option struct_stat))
           (path : string) (rc : Z) : M Z :=
  r <- stat_fn path ;;
  match r with
  | Some finfo =>
      format_times w finfo ;;
      (if is_symlink (st_mode finfo) then
         n <- readlink w path MAXPATHLEN ;;
         if 0 <=? n then
           shown <- print_target ;;
           printf (identity_line_link path shown)
         else
           printf (identity_line_unreadable path)
       else
         printf (identity_line path)) ;;
      printf (size_text finfo) ;;
      (if is_device_type (st_mode finfo) then printf (device_text w finfo)
       else printf NL) ;;
      decode_permissions w finfo ;;
      print_times ;;
      ret rc
  | None =>
      perror w "Unable to stat() file" ;;
      get_errno
  end.

(** [while ( (rc == 0) && (argn < argc) ) { ...; argn++; }] over the
    arguments from [argv[argn]] on. *)
Fixpoint stat_loop (w : world) (stat_fn : string -> M (option struct_stat))
         (rc : Z) (args : list string) : M Z :=
  match args with
  | [] => ret rc
  | path :: rest =>
      if rc =? 0 then
        rc' <- stat_one w stat_fn path rc ;;
        stat_loop w stat_fn rc' rest
      else ret rc
  end.

(** The options of the program, [-h] and [-L] (under which
    [long_options] also puts [--help] and [--dereference]). *)
Definition recognised (c : ascii) : bool :=
  Ascii.eqb c "L" || Ascii.eqb c "h".

(** One call of [getopt_long] on the next option character [c] of the
    command line: an option of the program is returned as it is; for
    any other character [getopt_long], whose [opterr] the program leaves
    set, writes its diagnostic to the error stream and returns [?]. *)
Definition getopt_long (w : world) (c : ascii) : M ascii :=
  if recognised c then ret c
  else fun g => ("?"%char, g, [Stderr (illegal_option w c)]).

(** The option loop.  [opts] are the option characters of the command
    line, in the order in which the successive calls of [getopt_long]
    meet them before it returns -1; [None] stands for the [exit(0)]
    that follows the usage text of [-h]. *)
Fixpoint getopt_loop (w : world) (exe : string) (opts : list ascii)
         (follow_symlinks : bool) : M (option bool) :=
  match opts with
  | [] => ret (Some follow_symlinks)
  | c :: rest =>
      opt_c <- getopt_long w c ;;
      if Ascii.eqb opt_c "L" then getopt_loop w exe rest true
      else if Ascii.eqb opt_c "h" then (usage exe ;; ret None)
      else getopt_loop w exe rest follow_symlinks
  end.

(** [main]: [exe] is [argv[0]], [opts] the option characters that
    [getopt_long] meets and [paths] the arguments from [argv[optind]]
    on. *)
Definition main (w : world) (exe : string) (opts : list ascii)
           (paths : list string) : M Z :=
  o <- getopt_loop w exe opts false ;;
  match o with
  | None => ret 0
  | Some follow_symlinks =>
      match paths with
      | [] =>
          printf ("ERROR:  no files provided" ++ NL) ;;
          usage exe ;;
          ret EINVAL
      | _ :: _ =>
          let stat_fn := if follow_symlinks then stat w else lstat w in
          stat_loop w stat_fn 0 paths
      end
  end.

(** A run of the program: its exit status and what it did. *)
Definition run (w : world) (exe : string) (opts : list ascii)
           (paths : list string) : Z * list event :=
  let '(rc, _, tr) := main w exe opts paths (initial w) in (rc, tr).

Definition exit_status (w : world) (exe : string) (opts : list ascii)
           (paths : list string) : Z := fst (run w exe opts paths).
Definition trace (w : world) (exe : string) (opts : list ascii)
           (paths : list string) : list event := snd (run w exe opts paths).

(** ** Views of a trace *)

Definition is_query (e : event) : bool :=
  match e with
  | Call_stat _ | Call_lstat _ => true
  | _ => false
  end.

Definition is_output (e : event) : bool :=
  match e with
  | Stdout _ | Stderr _ => true
  | _ => false
  end.

(** What the user sees: the texts written to the two streams, in order. *)
Definition output (tr : list event) : list event := filter is_output tr.

(** The paths that were handed to [stat] or [lstat], in order. *)
Fixpoint queried (tr : list event) : list string :=
  match tr with
  | [] => []
  | Call_stat p :: r | Call_lstat p :: r => p :: queried r
  | _ :: r => queried r
  end.

(** The text written to standard output. *)
Fixpoint stdout_text (tr : list event) : string :=
  match tr with
  | [] => ""
  | Stdout s :: r => s ++ stdout_text r
  | _ :: r => stdout_text r
  end.

(** The query that [stat_fn] stands for, and what the option loop
    decides, as plain functions of the options. *)
Definition query (w : world) (follow_symlinks : bool)
  : string -> sysret struct_stat :=
  if follow_symlinks then sys_stat w else sys_lstat w.

Definition dereference (opts : list ascii) : bool :=
  existsb (Ascii.eqb "L") opts.

Definition no_help (opts : list ascii) : Prop := ~ In "h"%char opts.

(** The error codes of the queries of a trace that failed, in order. *)
Fixpoint failures (w : world) (tr : list event) : list Z :=
  match tr with
  | [] => []
  | Call_stat p :: r =>
      match sys_stat w p with
      | Err e => e :: failures w r
      | Ok _ => failures w r
      end
  | Call_lstat p :: r =>
      match sys_lstat w p with
      | Err e => e :: failures w r
      | Ok _ => failures w r
      end
  | _ :: r => failures w r
  end.

(** The memory once [format_times] has run on [finfo]. *)
Definition stamped (w : world) (finfo : struct_stat) (g : memory) : memory :=
  snd (fst (format_times w finfo g)).

(** The events of one successful turn of the loop after the identity
    line: the size and device lines, the permissions line and the three
    timestamp lines. *)
Definition record_events (w : world) (finfo : struct_stat) (g : memory)
  : list event :=
  [ Stdout (size_text finfo);
    Stdout (if is_device_type (st_mode finfo) then device_text w finfo else NL);
    Stdout (permissions_line w finfo);
    Stdout (times_text g) ].

Fixpoint contains (sub s : string) : bool :=
  String.prefix sub s ||
  match s with
  | "" => false
  | String _ r => contains sub r
  end.

(** ** The wording of the specification *)

Module Spec.

(** The file types of the fixed mapping. *)
Inductive kind : Type :=
| Fifo | CharacterDevice | Directory | BlockDevice | Regular
| Symlink | Socket | Door | EventPort | Other.

Definition code (k : kind) : Z :=
  match k with
  | Fifo => S_IFIFO
  | CharacterDevice => S_IFCHR
  | Directory => S_IFDIR
  | BlockDevice => S_IFBLK
  | Regular => S_IFREG
  | Symlink => S_IFLNK
  | Socket => S_IFSOCK
  | Door => S_IFDOOR
  | EventPort => S_IFPORT
  | Other => 0
  end.

Definition label (k : kind) : string :=
  match k with
  | Fifo => "named fifo"
  | CharacterDevice => "character device"
  | Directory => "directory"
  | BlockDevice => "block device"
  | Regular => "regular file"
  | Symlink => "symbolic link"
  | Socket => "socket"
  | Door => "door"
  | EventPort => "event port"
  | Other => "<unknown>"
  end.

Definition letter (k : kind) : ascii :=
  match k with
  | Fifo => "p"
  | CharacterDevice => "c"
  | Directory => "d"
  | BlockDevice => "b"
  | Regular => "-"
  | Symlink => "l"
  | Socket => "s"
  | Door => "D"
  | EventPort => "P"
  | Other => "?"
  end%char.

(** A mode is of kind [k] when its type bits are the code of [k], and
    of kind [Other] when they are the code of no kind. *)
Definition has_kind (st_mode : Z) (k : kind) : Prop :=
  match k with
  | Other => forall k', k' <> Other -> Z.land st_mode S_IFMT <> code k'
  | _ => Z.land st_mode S_IFMT = code k
  end.

(** The execute position of a triplet: [special] is the letter of the
    setuid, setgid or sticky bit of that triplet. *)
Definition execute_char (special : ascii) (upper : ascii)
           (special_set exec_set : bool) : ascii :=
  match special_set, exec_set with
  | true, true => special
  | true, false => upper
  | false, true => "x"
  | false, false => "-"
  end%char.

Definition triplet (st_mode : Z) (r w x sp : Z) (special upper : ascii)
  : string :=
  str3 (if Z.testbit st_mode r then "r" else "-")%char
       (if Z.testbit st_mode w then "w" else "-")%char
       (execute_char special upper (Z.testbit st_mode sp) (Z.testbit st_mode x)).

(** The symbolic mode as the specification words it: setuid in the
    owner triplet, setgid in the group triplet, sticky in the last. *)
Definition symbolic (type_char : ascii) (st_mode : Z) : string :=
  String type_char
    (triplet st_mode 8 7 6 11 "s" "S" ++
     triplet st_mode 5 4 3 10 "s" "S" ++
     triplet st_mode 2 1 0 9 "t" "T").

(** YYYY-MM-DD HH:MM:SS±ZZZZ *)
Definition is_digit (c : ascii) : bool :=
  let n := nat_of_ascii c in ((48 <=? n) && (n <=? 57))%nat.
Definition is_sign (c : ascii) : bool :=
  Ascii.eqb c "+" || Ascii.eqb c "-".

Definition timestamp_shape : list (ascii -> bool) :=
  [ is_digit; is_digit; is_digit; is_digit; Ascii.eqb "-";
    is_digit; is_digit; Ascii.eqb "-"; is_digit; is_digit; Ascii.eqb " ";
    is_digit; is_digit; Ascii.eqb ":"; is_digit; is_digit; Ascii.eqb ":";
    is_digit; is_digit; is_sign; is_digit; is_digit; is_digit; is_digit ].

Fixpoint matches (shape : list (ascii -> bool)) (s : string) : bool :=
  match shape, s with
  | [], "" => true
  | f :: shape', String c s' => f c && matches shape' s'
  | _, _ => false
  end.

Definition is_timestamp (s : string) : bool := matches timestamp_shape s.

(** The ten digits, written out. *)
Definition digit (d : Z) : ascii :=
  match d with
  | 0 => "0" | 1 => "1" | 2 => "2" | 3 => "3" | 4 => "4"
  | 5 => "5" | 6 => "6" | 7 => "7" | 8 => "8" | 9 => "9"
  | _ => "?"
  end%char.

Definition dd (n : Z) : string :=
  String (digit (n / 10)) (String (digit (n mod 10)) "").
Definition dddd (n : Z) : string := dd (n / 100) ++ dd (n mod 100).

(** The civil time [year-month-day hour:minute:second], [east] seconds
    east of Greenwich. *)
Definition timestamp (year month day hour minute second east : Z) : string :=
  dddd year ++ "-" ++ dd month ++ "-" ++ dd day ++ " " ++
  dd hour ++ ":" ++ dd minute ++ ":" ++ dd second ++
  (if east <? 0 then "-" else "+") ++
  dd (Z.abs east / 3600) ++ dd (Z.abs east / 60 mod 60).

End Spec.

(** The reading of a [struct tm] as a timestamp of the specification. *)
Definition utc_offset (w : world) (t : struct_tm) : Z :=
  - (if 0 <? tm_isdst t then altzone w else timezone w).

Definition tm_timestamp (w : world) (t : struct_tm) : string :=
  Spec.timestamp (tm_year t + 1900) (tm_mon t + 1) (tm_mday t)
                 (tm_hour t) (tm_min t) (tm_sec t) (utc_offset w t).

(** The ranges of <time.h>, a year of four digits, and a known daylight
    saving flag: what [localtime_r] yields for a [time_t] of 32 bits. *)
Definition civil (t : struct_tm) : Prop :=
  0 <= tm_sec t <= 60 /\ 0 <= tm_min t <= 59 /\ 0 <= tm_hour t <= 23 /\
  1 <= tm_mday t <= 31 /\ 0 <= tm_mon t <= 11 /\
  1000 <= tm_year t + 1900 <= 9999 /\ 0 <= tm_isdst t.

(** Offsets from UTC stay within a day. *)
Definition zone_ok (w : world) : Prop :=
  Z.abs (timezone w) < 86400 /\ Z.abs (altzone w) < 86400.

(** ** A small system to run the program on *)

Module Example.

(** The proleptic Gregorian date of a day number counted from
    1970-01-01, by eras of 400 years starting on 1 March. *)
Definition civil_from_days (days : Z) : Z * Z * Z :=
  let z := days + 719468 in
  let era := z / 146097 in
  let doe := z - era * 146097 in
  let yoe := (doe - doe / 1460 + doe / 36524 - doe / 146096) / 365 in
  let doy := doe - (365 * yoe + yoe / 4 - yoe / 100) in
  let mp := (5 * doy + 2) / 153 in
  let d := doy - (153 * mp + 2) / 5 + 1 in
  let m := if mp <? 10 then mp + 3 else mp - 9 in
  let y := yoe + era * 400 in
  (if m <=? 2 then y + 1 else y, m, d).

Definition days_from_civil (y m d : Z) : Z :=
  let y' := if m <=? 2 then y - 1 else y in
  let era := y' / 400 in
  let yoe := y' - era * 400 in
  let mp := if 2 <? m then m - 3 else m + 9 in
  let doy := (153 * mp + 2) / 5 + d - 1 in
  let doe := yoe * 365 + yoe / 4 - yoe / 100 + doy in
  era * 146097 + doe - 719468.

(** [localtime_r] of a zone that keeps one offset all year, [west]
    seconds west of Greenwich. *)
Definition zone_localtime (west : Z) (clock : Z) : struct_tm :=
  let l := clock - west in
  let days := l / 86400 in
  let secs := l mod 86400 in
  let '(y, m, d) := civil_from_days days in
  {| tm_sec := secs mod 60; tm_min := secs / 60 mod 60; tm_hour := secs / 3600;
     tm_mday := d; tm_mon := m - 1; tm_year := y - 1900;
     tm_wday := (days + 4) mod 7;
     tm_yday := days - days_from_civil y 1 1;
     tm_isdst := 0 |}.

Definition entry (mode uid gid size blocks ino nlink rdev atime mtime ctime : Z)
  : struct_stat :=
  {| st_mode := mode; st_uid := uid; st_gid := gid;
     st_size := size; st_blocks := blocks; st_blksize := 8192;
     st_dev := 0x1540001; st_rdev := rdev; st_ino := ino; st_nlink := nlink;
     st_atime := atime; st_mtime := mtime; st_ctime := ctime |}.

(** The root directory of the comment at the head of [stat.c]. *)
Definition root : struct_stat :=
  entry 0x41ED 0 0 1024 2 2 38 0 1517501132 1516683698 1516683698.
Definition passwd : struct_stat :=
  entry 0x81A4 0 3 1299 4 1721 1 0 1517500000 1516000000 1516000000.
Definition usr_bin : struct_stat :=
  entry 0x41ED 0 2 1024 2 77 4 0 1517500001 1516000001 1516000001.
Definition bin_link : struct_stat :=
  entry 0xA1FF 0 0 9 1 31 1 0 1517500002 1516000002 1516000002.
Definition null_device : struct_stat :=
  entry 0x21B6 0 3 0 0 40 1 0x3400002 1517500003 1516000003 1516000003.
Definition tmp : struct_stat :=
  entry 0x43FF 0 3 512 1 5 9 0 1517500004 1516000004 1516000004.
Definition su : struct_stat :=
  entry 0x896D 0 3 35000 70 900 1 0 1517500005 1516000005 1516000005.
Definition orphan : struct_stat :=
  entry 0x81A4 4242 4343 12 1 1234 1 0 1517500006 1516000006 1516000006.
Definition tmp_link : struct_stat :=
  entry 0xA1FF 0 0 10 1 32 1 0 1517500008 1516000008 1516000008.
Definition opaque_link : struct_stat :=
  entry 0xA1FF 0 0 0 0 555 1 0 1517500007 1516000007 1516000007.

Definition lookup {A : Type} (table : list (string * A)) (path : string)
  : sysret A :=
  match find (fun e => String.eqb (fst e) path) table with
  | Some e => Ok (snd e)
  | None => Err ENOENT
  end.

Definition files : list (string * struct_stat) :=
  [ ("/", root); ("/etc/passwd", passwd); ("/usr/bin", usr_bin);
    ("/dev/null", null_device); ("/tmp", tmp); ("/usr/bin/su", su);
    ("/export/orphan", orphan) ].

Definition links : list (string * struct_stat) :=
  [ ("/bin", bin_link); ("/usr/tmp", tmp_link); ("/proc/1/cwd", opaque_link) ].

Definition names (table : list (Z * string)) (id : Z) : option string :=
  match find (fun e => fst e =? id) table with
  | Some e => Some (snd e)
  | None => None
  end.

Definition system : world :=
  {| sys_stat := fun p =>
       if String.eqb p "/locked/file" then Err EACCES
       else if String.eqb p "/bin" then Ok usr_bin
       else if String.eqb p "/usr/tmp" then Ok tmp
       else lookup files p;
     sys_lstat := fun p =>
       if String.eqb p "/locked/file" then Err EACCES
       else lookup (links ++ files)%list p;
     sys_readlink := fun p =>
       if String.eqb p "/bin" then Ok "./usr/bin"
       else if String.eqb p "/usr/tmp" then Ok "../var/tmp"
       else if String.eqb p "/proc/1/cwd" then Err EACCES
       else Err EINVAL;
     stack_junk := "";
     pw_entry := names [ (0, "root"); (1, "daemon") ];
     gr_entry := names [ (0, "root"); (2, "bin"); (3, "sys") ];
     localtime_r := zone_localtime 18000;
     timezone := 18000;
     altzone := 14400;
     strerror := fun e =>
       if e =? ENOENT then "No such file or directory"
       else if e =? EACCES then "Permission denied"
       else if e =? EBADF then "Bad file number"
       else "Unknown error";
     perror_errno := fun e => e;
     illegal_option := fun c =>
       "stat: illegal option -- " ++ String c "" ++ NL;
     major := fun d => Z.land (Z.shiftr d 18) 0x3FFF;
     minor := fun d => Z.land d 0x3FFFF |}.

(** The same system with a stack that earlier calls have written on. *)
Definition used_stack : world :=
  {| sys_stat := sys_stat system; sys_lstat := sys_lstat system;
     sys_readlink := sys_readlink system;
     stack_junk := "/usr/lib/ld.so.1";
     pw_entry := pw_entry system; gr_entry := gr_entry system;
     localtime_r := localtime_r system;
     timezone := timezone system; altzone := altzone system;
     strerror := strerror system;
     perror_errno := perror_errno system;
     illegal_option := illegal_option system;
     major := major system; minor := minor system |}.

(** The same system with the error stream closed: [perror] cannot
    write and leaves EBADF in [errno]. *)
Definition closed_stderr : world :=
  {| sys_stat := sys_stat system; sys_lstat := sys_lstat system;
     sys_readlink := sys_readlink system;
     stack_junk := stack_junk system;
     pw_entry := pw_entry system; gr_entry := gr_entry system;
     localtime_r := localtime_r system;
     timezone := timezone system; altzone := altzone system;
     strerror := strerror system;
     perror_errno := fun _ => EBADF;
     illegal_option := illegal_option system;
     major := major system; minor := minor system |}.

End Example.

(** ** Tools for the proofs *)

(** [f] holds at the [n] integers from [lo] on. *)
Fixpoint range_all (f : Z -> bool) (lo : Z) (n : nat) : bool :=
  match n with
  | O => true
  | S k => f lo && range_all f (lo + 1) k
  end.

(** The event that records a query. *)
Definition call (follow_symlinks : bool) (path : string) : event :=
  if follow_symlinks then Call_stat path else Call_lstat path.

(** The memory and the identity events of a successful turn of the loop
    on [path], whose metadata are [finfo]. *)
Definition identity_step (w : world) (path : string) (finfo : struct_stat)
           (g : memory) : memory * list event :=
  if is_symlink (st_mode finfo) then
    match sys_readlink w path with
    | Ok l =>
        let written := take MAXPATHLEN l in
        let mem := written ++ drop (String.length written) (target g) in
        (set_target mem g,
         [Call_readlink path; Stdout (identity_line_link path (cstr mem))])
    | Err e =>
        (set_errno e g,
         [Call_readlink path; Stdout (identity_line_unreadable path)])
    end
  else (g, [Stdout (identity_line path)]).

(** The two identity databases, side by side. *)
Inductive id_kind : Type := User | Group.

Definition id_entry (w : world) (k : id_kind) : Z -> option string :=
  match k with
  | User => pw_entry w
  | Group => gr_entry w
  end.

Definition owner_id (k : id_kind) (finfo : struct_stat) : Z :=
  match k with
  | User => st_uid finfo
  | Group => st_gid finfo
  end.

Definition id_label (k : id_kind) : string :=
  match k with
  | User => "Uid: "
  | Group => "Gid: "
  end.

(** The date of a day number lies in the ranges of <time.h>, with a
    year of four digits. *)
Definition civil_day_ok (days : Z) : bool :=
  let '(y, m, d) := Example.civil_from_days days in
  (1 <=? d) && (d <=? 31) && (1 <=? m) && (m <=? 12) &&
  (1000 <=? y) && (y <=? 9999).

(** The type bits of a mode that is of no kind differ from the code of
    the kind [k]. *)
Ltac not_of_kind Hne k :=
  let E := fresh "E" in
  assert (E := Hne k ltac:(discriminate));
  cbn [Spec.code] in E; rewrite !E; clear E.

(** More views of a trace. *)
Definition is_stderr (e : event) : bool :=
  match e with
  | Stderr _ => true
  | _ => false
  end.

(** The system calls that a run with the given [follow_symlinks] may
    make for its queries: [stat] with [-L], [lstat] without. *)
Definition permitted (follow_symlinks : bool) (e : event) : bool :=
  match e with
  | Call_stat _ => follow_symlinks
  | Call_lstat _ => negb follow_symlinks
  | _ => true
  end.

(** The octal digit that a triplet of the symbolic mode stands for. *)
Definition triplet_digit (s : string) : Z :=
  match s with
  | String r (String w (String x "")) =>
      (if Ascii.eqb r "r" then 4 else 0) +
      (if Ascii.eqb w "w" then 2 else 0) +
      (if Ascii.eqb x "x" || Ascii.eqb x "s" then 1 else 0)
  | _ => 0
  end.

(** Reading numbers back from their digits. *)
Definition digit_value (c : ascii) : Z :=
  let n := Z.of_nat (nat_of_ascii c) in
  if n <? 58 then n - 48 else n - 87.

Fixpoint digits_value (base : Z) (acc : Z) (s : string) : Z :=
  match s with
  | "" => acc
  | String c r => digits_value base (acc * base + digit_value c) r
  end.

Definition read_d (s : string) : Z :=
  match s with
  | String c r =>
      if Ascii.eqb c "-" then - digits_value 10 0 r else digits_value 10 0 s
  | "" => 0
  end.

(** The low twelve bits of a mode: the access bits and the setuid,
    setgid and sticky bits. *)
Definition S_PERMS : Z := 0xFFF.

(** What [getopt_long] writes to the error stream while the option loop
    goes through [opts]: one diagnostic for each character that is not
    an option of the program. *)
Fixpoint diagnostics (w : world) (opts : list ascii) : list event :=
  match opts with
  | [] => []
  | c :: rest =>
      if recognised c then diagnostics w rest
      else Stderr (illegal_option w c) :: diagnostics w rest
  end.

(** The options that the loop meets before the first [-h]. *)
Fixpoint before_help (opts : list ascii) : list ascii :=
  match opts with
  | [] => []
  | c :: rest => if Ascii.eqb c "h" then [] else c :: before_help rest
  end.

Definition is_stdout (e : event) : bool :=
  match e with
  | Stdout _ => true
  | _ => false
  end.

(** * Properties *)

Lemma range_all_spec (f : Z -> bool) (n : nat) :
  forall lo, range_all f lo n = true ->
  forall v, lo <= v < lo + Z.of_nat n -> f v = true.
Proof.
  induction n as [|k IH]; intros lo Hall v Hv.
  - simpl in Hv. lia.
  - simpl in Hall. apply andb_prop in Hall as [Hlo Hrest].
    destruct (Z.eq_dec v lo) as [->|Hne]; [exact Hlo|].
    apply (IH (lo + 1) Hrest). lia.
Qed.

Lemma range_all_between (f : Z -> bool) (lo hi : Z) :
  range_all f lo (Z.to_nat (hi - lo)) = true ->
  forall v, lo <= v < hi -> f v = true.
Proof.
  intros Hall v Hv. apply (range_all_spec f _ lo Hall). lia.
Qed.

(** ** The monad *)

Lemma bind_eq {A B : Type} (m : M A) (k : A -> M B) g a g1 t1 b g2 t2 :
  m g = (a, g1, t1) -> k a g1 = (b, g2, t2) ->
  bind m k g = (b, g2, (t1 ++ t2)%list).
Proof. intros Hm Hk. unfold bind. rewrite Hm, Hk. reflexivity. Qed.

Lemma stat_fn_query (w : world) (follow : bool) (p : string) (g : memory) :
  (if follow then stat w else lstat w) p g =
  match query w follow p with
  | Ok fi => (Some fi, g, [call follow p])
  | Err e => (None, set_errno e g, [call follow p])
  end.
Proof. destruct follow; reflexivity. Qed.

Lemma times_text_set_target t g : times_text (set_target t g) = times_text g.
Proof. reflexivity. Qed.

Lemma times_text_set_errno e g : times_text (set_errno e g) = times_text g.
Proof. reflexivity. Qed.

Lemma times_text_identity_step w p fi g :
  times_text (fst (identity_step w p fi g)) = times_text g.
Proof.
  unfold identity_step.
  destruct (is_symlink (st_mode fi)); [|reflexivity].
  destruct (sys_readlink w p); reflexivity.
Qed.

(** ** One turn of the loop *)

Lemma stat_one_ok (w : world) (follow : bool) (p : string) (rc : Z)
      (g : memory) (fi : struct_stat) :
  query w follow p = Ok fi ->
  stat_one w (if follow then stat w else lstat w) p rc g =
  (rc, fst (identity_step w p fi (stamped w fi g)),
   (call follow p :: snd (identity_step w p fi (stamped w fi g)) ++
    record_events w fi (stamped w fi g))%list).
Proof.
  intros Hq. unfold stat_one, bind at 1.
  rewrite stat_fn_query, Hq.
  unfold identity_step, stamped, record_events, decode_permissions.
  unfold bind, format_times, readlink, print_target, printf, print_times, ret.
  cbn [fst snd].
  destruct (is_symlink (st_mode fi)).
  - destruct (sys_readlink w p) as [l|e]; cbn [fst snd target].
    + replace (0 <=? Z.of_nat (String.length (take MAXPATHLEN l))) with true
        by (symmetry; apply Z.leb_le; lia).
      destruct (is_device_type (st_mode fi)); reflexivity.
    + change (0 <=? -1) with false.
      destruct (is_device_type (st_mode fi)); reflexivity.
  - destruct (is_device_type (st_mode fi)); reflexivity.
Qed.

Lemma stat_one_err (w : world) (follow : bool) (p : string) (rc : Z)
      (g : memory) (e : Z) :
  query w follow p = Err e ->
  stat_one w (if follow then stat w else lstat w) p rc g =
  (perror_errno w e, set_errno (perror_errno w e) g,
   [call follow p; Stderr ("Unable to stat() file: " ++ strerror w e ++ NL)]).
Proof.
  intros Hq. unfold stat_one, bind at 1.
  rewrite stat_fn_query, Hq. reflexivity.
Qed.

Lemma stat_loop_stopped (w : world) stat_fn (rc : Z) (args : list string) g :
  rc <> 0 -> stat_loop w stat_fn rc args g = (rc, g, []).
Proof.
  intros Hrc. destruct args as [|p rest]; [reflexivity|].
  simpl. apply Z.eqb_neq in Hrc. rewrite Hrc. reflexivity.
Qed.

Lemma stat_loop_cons (w : world) stat_fn (p : string) (rest : list string) g
      rc1 g1 t1 :
  stat_one w stat_fn p 0 g = (rc1, g1, t1) ->
  stat_loop w stat_fn 0 (p :: rest) g =
  (let '(rc2, g2, t2) := stat_loop w stat_fn rc1 rest g1 in
   (rc2, g2, (t1 ++ t2)%list)).
Proof.
  intros H1. simpl. unfold bind. rewrite H1. reflexivity.
Qed.

(** ** The option loop *)

Lemma getopt_long_recognised (w : world) (c : ascii) g :
  recognised c = true -> getopt_long w c g = (c, g, []).
Proof. intros H. unfold getopt_long. rewrite H. reflexivity. Qed.

Lemma getopt_long_unknown (w : world) (c : ascii) g :
  recognised c = false ->
  getopt_long w c g = ("?"%char, g, [Stderr (illegal_option w c)]).
Proof. intros H. unfold getopt_long. rewrite H. reflexivity. Qed.

Lemma getopt_loop_no_help (w : world) (exe : string) (opts : list ascii) :
  no_help opts ->
  forall follow g,
    getopt_loop w exe opts follow g =
    (Some (follow || dereference opts), g, diagnostics w opts).
Proof.
  unfold no_help, dereference.
  induction opts as [|c rest IH]; intros Hno follow g.
  - simpl. rewrite orb_false_r. reflexivity.
  - assert (Hrest : ~ In "h"%char rest) by (intros Hin; apply Hno; right; exact Hin).
    assert (Hh : Ascii.eqb c "h" = false).
    { apply Ascii.eqb_neq. intros ->. apply Hno. left. reflexivity. }
    cbn [getopt_loop existsb diagnostics]. unfold bind.
    rewrite (Ascii.eqb_sym "L" c).
    destruct (Ascii.eqb c "L") eqn:HL.
    + rewrite getopt_long_recognised by (unfold recognised; rewrite HL; reflexivity).
      unfold recognised. rewrite HL. cbn [orb].
      rewrite (IH Hrest true). rewrite orb_true_r. reflexivity.
    + rewrite getopt_long_unknown by (unfold recognised; rewrite HL, Hh; reflexivity).
      unfold recognised. rewrite HL, Hh. cbn [orb Ascii.eqb Bool.eqb].
      rewrite (IH Hrest follow). reflexivity.
Qed.

Lemma main_no_help (w : world) (exe : string) (opts : list ascii)
      (paths : list string) (g : memory) :
  no_help opts ->
  main w exe opts paths g =
  match paths with
  | [] => (EINVAL, g,
           (diagnostics w opts ++
            [Stdout ("ERROR:  no files provided" ++ NL);
             Stdout (usage_text exe)])%list)
  | _ :: _ =>
      let r := stat_loop w (if dereference opts then stat w else lstat w)
                         0 paths g in
      (fst (fst r), snd (fst r), (diagnostics w opts ++ snd r)%list)
  end.
Proof.
  intros Hno. unfold main, bind at 1.
  rewrite (getopt_loop_no_help w exe opts Hno). cbn [orb].
  destruct paths as [|p rest].
  - reflexivity.
  - cbv zeta. destruct (stat_loop w _ 0 (p :: rest) g) as [[rc g'] tr]. reflexivity.
Qed.

(** ** Traces of the loop *)

Lemma queried_app (t1 t2 : list event) :
  queried (t1 ++ t2) = (queried t1 ++ queried t2)%list.
Proof.
  induction t1 as [|e t1 IH]; [reflexivity|].
  destruct e; simpl; rewrite IH; reflexivity.
Qed.

Lemma failures_app (w : world) (t1 t2 : list event) :
  failures w (t1 ++ t2) = (failures w t1 ++ failures w t2)%list.
Proof.
  induction t1 as [|e t1 IH]; [reflexivity|].
  destruct e as [s|s|q|q|q]; simpl; try exact IH.
  - destruct (sys_stat w q); simpl; rewrite IH; reflexivity.
  - destruct (sys_lstat w q); simpl; rewrite IH; reflexivity.
Qed.

Lemma queried_call follow p : queried [call follow p] = [p].
Proof. destruct follow; reflexivity. Qed.

Lemma queried_identity_step w p fi g :
  queried (snd (identity_step w p fi g)) = [].
Proof.
  unfold identity_step.
  destruct (is_symlink (st_mode fi)); [|reflexivity].
  destruct (sys_readlink w p); reflexivity.
Qed.

Lemma failures_identity_step w p fi g :
  failures w (snd (identity_step w p fi g)) = [].
Proof.
  unfold identity_step.
  destruct (is_symlink (st_mode fi)); [|reflexivity].
  destruct (sys_readlink w p); reflexivity.
Qed.

Lemma failures_call_ok w follow p fi :
  query w follow p = Ok fi -> failures w [call follow p] = [].
Proof. destruct follow; simpl; intros ->; reflexivity. Qed.

Lemma failures_call_err w follow p e :
  query w follow p = Err e -> failures w [call follow p] = [e].
Proof. destruct follow; simpl; intros ->; reflexivity. Qed.

(** The trace of a turn that succeeds holds one query, of its path, and
    no failure. *)
Lemma turn_ok_views w follow p rc g fi :
  query w follow p = Ok fi ->
  exists g1 t1,
    stat_one w (if follow then stat w else lstat w) p rc g = (rc, g1, t1) /\
    queried t1 = [p] /\ failures w t1 = [].
Proof.
  intros Hq. eexists _, _. split; [apply stat_one_ok; exact Hq|].
  change (call follow p :: ?l)%list with ([call follow p] ++ l)%list.
  rewrite !queried_app, !failures_app, queried_call, queried_identity_step.
  rewrite (failures_call_ok _ _ _ _ Hq), failures_identity_step.
  split; reflexivity.
Qed.

Lemma stdout_identity_step_length w p fi g :
  List.length (filter is_stdout (snd (identity_step w p fi g))) = 1%nat.
Proof.
  unfold identity_step.
  destruct (is_symlink (st_mode fi)); [|reflexivity].
  destruct (sys_readlink w p); reflexivity.
Qed.

Lemma stdout_call follow p (t : list event) :
  filter is_stdout (call follow p :: t) = filter is_stdout t.
Proof. destruct follow; reflexivity. Qed.

(** The loop on paths whose queries all succeed: it ends with the
    status 0, has queried each path once and in order, and has written
    the five texts of each record, among them its size and permissions
    lines. *)
Lemma stat_loop_all_ok_run w follow :
  forall args g,
    (forall p, In p args -> exists fi, query w follow p = Ok fi) ->
    exists g1 tr,
      stat_loop w (if follow then stat w else lstat w) 0 args g = (0, g1, tr) /\
      queried tr = args /\
      List.length (filter is_stdout tr) = (5 * List.length args)%nat /\
      (forall q fi, In q args -> query w follow q = Ok fi ->
         In (Stdout (size_text fi)) tr /\
         In (Stdout (permissions_line w fi)) tr).
Proof.
  induction args as [|p rest IH]; intros g Hall.
  - exists g, []. repeat split; try reflexivity; destruct H.
  - destruct (Hall p (or_introl eq_refl)) as [fi Hq].
    destruct (IH (fst (identity_step w p fi (stamped w fi g)))
                 (fun q Hin => Hall q (or_intror Hin)))
      as (g1 & tr & Hrun & Hqs & Hlen & Hfmt).
    exists g1. eexists. split; [|split; [|split]].
    + rewrite (stat_loop_cons _ _ _ _ _ _ _ _ (stat_one_ok w follow p 0 g fi Hq)).
      rewrite Hrun. reflexivity.
    + rewrite <- app_comm_cons.
      change (call follow p :: ?x)%list with ([call follow p] ++ x)%list.
      rewrite !queried_app, queried_call, queried_identity_step, Hqs. reflexivity.
    + rewrite <- app_comm_cons, stdout_call, !filter_app, !length_app,
        stdout_identity_step_length, Hlen.
      cbn [record_events filter is_stdout List.length]. lia.
    + intros q fi' [<-|Hin] Hq'.
      * assert (fi' = fi) by congruence. subst fi'.
        split; apply in_or_app; left; right; apply in_or_app; right;
          unfold record_events; simpl; tauto.
      * destruct (Hfmt q fi' Hin Hq') as [Hs Hp].
        split; apply in_or_app; right; assumption.
Qed.

(** The loop up to the first query that fails, when [main] reads a
    status that is not zero after [perror]: the paths before it are
    handled as in the loop on them alone, the failure is reported, and
    the rest of the arguments has no part in the outcome. *)
Lemma stat_loop_first_failure w follow p e :
  query w follow p = Err e -> perror_errno w e <> 0 ->
  forall pre g g1 tr,
    stat_loop w (if follow then stat w else lstat w) 0 pre g = (0, g1, tr) ->
    forall post,
      stat_loop w (if follow then stat w else lstat w) 0 (pre ++ p :: post) g =
      (perror_errno w e, set_errno (perror_errno w e) g1,
       (tr ++ [call follow p;
               Stderr ("Unable to stat() file: " ++ strerror w e ++ NL)])%list).
Proof.
  intros Hp He. induction pre as [|q pre IH]; intros g g1 tr Hrun post.
  - cbn in Hrun. injection Hrun as <- <-. cbn [app].
    rewrite (stat_loop_cons _ _ _ _ _ _ _ _ (stat_one_err w follow p 0 g e Hp)).
    rewrite stat_loop_stopped by exact He. reflexivity.
  - cbn [app].
    destruct (stat_one w (if follow then stat w else lstat w) q 0 g)
      as [[rc1 g2] t1] eqn:H1.
    rewrite (stat_loop_cons _ _ _ _ _ _ _ _ H1) in Hrun.
    rewrite (stat_loop_cons _ _ _ _ _ _ _ _ H1).
    destruct (Z.eq_dec rc1 0) as [->|Hrc].
    + destruct (stat_loop w _ 0 pre g2) as [[rc2 g3] t2] eqn:H2.
      injection Hrun as -> -> <-.
      rewrite (IH g2 g1 t2 H2 post), <- app_assoc. reflexivity.
    + rewrite stat_loop_stopped in Hrun by exact Hrc.
      injection Hrun as Hrc0. contradiction.
Qed.

(** ** Runs of the program *)

Lemma run_paths (w : world) (exe : string) (opts : list ascii)
      (p : string) (rest : list string) :
  no_help opts ->
  run w exe opts (p :: rest) =
  (fst (fst (stat_loop w (if dereference opts then stat w else lstat w) 0
                       (p :: rest) (initial w))),
   (diagnostics w opts ++
    snd (stat_loop w (if dereference opts then stat w else lstat w) 0
                   (p :: rest) (initial w)))%list).
Proof.
  intros Hno. unfold run. rewrite (main_no_help w exe opts _ _ Hno). reflexivity.
Qed.

Lemma run_no_paths (w : world) (exe : string) (opts : list ascii) :
  no_help opts ->
  run w exe opts [] =
  (EINVAL,
   (diagnostics w opts ++
    [Stdout ("ERROR:  no files provided" ++ NL); Stdout (usage_text exe)])%list).
Proof.
  intros Hno. unfold run. rewrite (main_no_help w exe opts [] _ Hno). reflexivity.
Qed.

Lemma no_help_nil : no_help [].
Proof. intros []. Qed.

Lemma no_help_L : no_help ["L"%char].
Proof. intros [H|[]]. discriminate H. Qed.

Lemma queried_diagnostics w opts : queried (diagnostics w opts) = [].
Proof.
  induction opts as [|c rest IH]; [reflexivity|].
  cbn [diagnostics]. destruct (recognised c); [exact IH|exact IH].
Qed.

Lemma stdout_text_diagnostics w opts : stdout_text (diagnostics w opts) = "".
Proof.
  induction opts as [|c rest IH]; [reflexivity|].
  cbn [diagnostics]. destruct (recognised c); [exact IH|exact IH].
Qed.

Lemma string_app_assoc (a b c : string) : (a ++ b) ++ c = a ++ b ++ c.
Proof. induction a as [|x a IH]; [reflexivity|]. simpl. rewrite IH. reflexivity. Qed.

Lemma string_app_nil_r (a : string) : a ++ "" = a.
Proof. induction a as [|x a IH]; [reflexivity|]. simpl. rewrite IH. reflexivity. Qed.

Lemma in_diagnostics w opts (e : event) :
  In e (diagnostics w opts) -> is_stderr e = true.
Proof.
  induction opts as [|c rest IH]; [intros []|].
  cbn [diagnostics]. destruct (recognised c); [exact IH|].
  intros [<-|Hin]; [reflexivity|exact (IH Hin)].
Qed.

Lemma stdout_text_app (t1 t2 : list event) :
  stdout_text (t1 ++ t2) = stdout_text t1 ++ stdout_text t2.
Proof.
  induction t1 as [|e t1 IH]; [reflexivity|].
  destruct e; cbn [app stdout_text]; rewrite IH; try reflexivity.
  rewrite string_app_assoc. reflexivity.
Qed.

(** C8.  When no path argument remains after the options (and the run
    was not ended by [-h]), the program writes to standard output the
    message [ERROR:  no files provided] and then the usage text with the
    name of the program in it, makes no metadata query at all, and exits
    with the status 22 (EINVAL), which is not zero.  The only other
    events of the run are the diagnostics that [getopt_long] itself
    writes to the error stream for options it does not know. *)
Theorem no_paths_is_invalid_usage (w : world) (exe : string) (opts : list ascii) :
  no_help opts ->
  run w exe opts [] =
    (22,
     (diagnostics w opts ++
      [Stdout ("ERROR:  no files provided" ++ NL);
       Stdout ("usage:" ++ NL ++ NL ++
               "  " ++ exe ++ " {options} <path> {<path> ..}" ++ NL ++ NL ++
               " options:" ++ NL ++ NL ++
               "  -h/--help            display this help and exit" ++ NL ++
               "  -L/--dereference     follow symlinks" ++ NL ++
               NL)])%list) /\
  stdout_text (trace w exe opts []) =
    "ERROR:  no files provided" ++ NL ++
    "usage:" ++ NL ++ NL ++
    "  " ++ exe ++ " {options} <path> {<path> ..}" ++ NL ++ NL ++
    " options:" ++ NL ++ NL ++
    "  -h/--help            display this help and exit" ++ NL ++
    "  -L/--dereference     follow symlinks" ++ NL ++
    NL /\
  exit_status w exe opts [] <> 0 /\
  queried (trace w exe opts []) = [] /\
  ~ (exists p, In (Call_readlink p) (trace w exe opts [])).
Proof.
  intros Hno. pose proof (run_no_paths w exe opts Hno) as Hrun.
  unfold exit_status, trace. rewrite Hrun. cbn [fst snd].
  split; [reflexivity|]. split; [|split; [discriminate|split]].
  - rewrite stdout_text_app, stdout_text_diagnostics.
    cbn [stdout_text append]. rewrite string_app_nil_r. reflexivity.
  - rewrite queried_app, queried_diagnostics. reflexivity.
  - intros [p Hin]. apply in_app_or in Hin as [Hd|[H|[H|[]]]];
      try discriminate H.
    apply in_diagnostics in Hd. discriminate Hd.
Qed.

Lemma no_paths_is_invalid_usage_witness :
  no_help ["L"; "z"]%char /\
  run Example.system "stat" ["L"; "z"]%char [] =
    (22,
     [Stderr "stat: illegal option -- z
";
      Stdout "ERROR:  no files provided
";
      Stdout "usage:

  stat {options} <path> {<path> ..}

 options:

  -h/--help            display this help and exit
  -L/--dereference     follow symlinks

"]) /\
  queried (trace Example.system "stat" ["L"; "z"]%char []) = [].
Proof.
  assert (Hno : no_help ["L"; "z"]%char)
    by (intros [H|[H|[]]]; discriminate H).
  destruct (no_paths_is_invalid_usage Example.system "stat" ["L"; "z"]%char Hno)
    as (Hrun & _ & _ & Hq & _).
  split; [exact Hno|]. split; [exact Hrun|exact Hq].
Defined.

(** C1, as the program has it.  When the query of a path fails and
    [main] reads a status that is not zero after [perror], the paths
    before it have been queried and formatted, as in the run on them
    alone: each has its five texts on standard output, its size and
    permissions lines among them.  The error is then reported on the
    error stream and the run ends there: no later path argument is
    queried or formatted, and the run is the one of the argument list
    cut after the failing path. *)
Theorem first_failure_ends_the_run (w : world) (exe : string)
        (opts : list ascii) (pre : list string) (p : string)
        (post : list string) (e : Z) :
  no_help opts ->
  (forall q, In q pre -> exists fi, query w (dereference opts) q = Ok fi) ->
  query w (dereference opts) p = Err e ->
  perror_errno w e <> 0 ->
  (exists tr,
     run w exe opts (pre ++ p :: post) =
       (perror_errno w e,
        (diagnostics w opts ++ tr ++
         [call (dereference opts) p;
          Stderr ("Unable to stat() file: " ++ strerror w e ++ NL)])%list) /\
     (pre <> [] -> run w exe opts pre = (0, (diagnostics w opts ++ tr)%list)) /\
     queried tr = pre /\
     List.length (filter is_stdout tr) = (5 * List.length pre)%nat /\
     (forall q fi, In q pre -> query w (dereference opts) q = Ok fi ->
        In (Stdout (size_text fi)) tr /\
        In (Stdout (permissions_line w fi)) tr)) /\
  queried (trace w exe opts (pre ++ p :: post)) = (pre ++ [p])%list /\
  run w exe opts (pre ++ p :: post) = run w exe opts (pre ++ [p]).
Proof.
  intros Hno Hpre Hp He.
  destruct (stat_loop_all_ok_run w (dereference opts) pre (initial w) Hpre)
    as (g1 & tr & Hloop & Hq & Hlen & Hfmt).
  pose proof (stat_loop_first_failure w (dereference opts) p e Hp He
                pre (initial w) g1 tr Hloop) as Hfail.
  assert (Hrun : forall post',
             run w exe opts (pre ++ p :: post') =
             (perror_errno w e,
              (diagnostics w opts ++ tr ++
               [call (dereference opts) p;
                Stderr ("Unable to stat() file: " ++ strerror w e ++ NL)])%list)).
  { intros post'.
    destruct (pre ++ p :: post')%list as [|a l] eqn:Hl.
    - destruct pre; discriminate Hl.
    - rewrite (run_paths w exe opts a l Hno), <- Hl, Hfail. reflexivity. }
  split; [exists tr; split; [apply Hrun|split; [|split; [|split]]]|split].
  - intros Hne. destruct pre as [|a l]; [congruence|].
    rewrite (run_paths w exe opts a l Hno), Hloop. reflexivity.
  - exact Hq.
  - exact Hlen.
  - exact Hfmt.
  - unfold trace. rewrite Hrun. cbn [snd].
    rewrite !queried_app, queried_diagnostics, Hq.
    change [call (dereference opts) p; ?x] with ([call (dereference opts) p] ++ [x])%list.
    rewrite queried_app, queried_call. reflexivity.
  - rewrite (Hrun post), (Hrun []). reflexivity.
Qed.

Lemma first_failure_ends_the_run_witness :
  no_help [] /\
  (forall q, In q ["/"; "/bin"] ->
             exists fi, query Example.system (dereference []) q = Ok fi) /\
  query Example.system (dereference []) "/missing" = Err ENOENT /\
  perror_errno Example.system ENOENT <> 0 /\
  (exists tr,
     run Example.system "stat" [] (["/"; "/bin"] ++ "/missing" :: ["/tmp"]) =
       (2, (tr ++ [Call_lstat "/missing";
                   Stderr "Unable to stat() file: No such file or directory
"])%list) /\
     run Example.system "stat" [] ["/"; "/bin"] = (0, tr) /\
     List.length (filter is_stdout tr) = 10%nat /\
     In (Stdout "Access: (0755/drwxr-xr-x)  Uid: (    0/    root)   Gid: (    0/    root)
") tr /\
     In (Stdout "Access: (0777/lrwxrwxrwx)  Uid: (    0/    root)   Gid: (    0/    root)
") tr) /\
  queried (trace Example.system "stat" [] (["/"; "/bin"] ++ "/missing" :: ["/tmp"]))
  = ["/"; "/bin"; "/missing"] /\
  run Example.system "stat" [] (["/"; "/bin"] ++ "/missing" :: ["/tmp"]) =
  run Example.system "stat" [] (["/"; "/bin"] ++ ["/missing"]).
Proof.
  assert (Hno : no_help []) by (intros []).
  assert (Hpre : forall q, In q ["/"; "/bin"] ->
                   exists fi, query Example.system (dereference []) q = Ok fi)
    by (intros q [<-|[<-|[]]]; eexists; reflexivity).
  assert (Hp : query Example.system (dereference []) "/missing" = Err ENOENT)
    by reflexivity.
  assert (He : perror_errno Example.system ENOENT <> 0) by discriminate.
  destruct (first_failure_ends_the_run Example.system "stat" []
              ["/"; "/bin"] "/missing" ["/tmp"] ENOENT Hno Hpre Hp He)
    as ((tr & Hrun & Halone & _ & Hlen & Hfmt) & Hq & Hcut).
  split; [exact Hno|]. split; [exact Hpre|]. split; [exact Hp|].
  split; [exact He|]. split; [|split; [exact Hq|exact Hcut]].
  exists tr. split; [exact Hrun|]. split; [apply Halone; discriminate|].
  split; [exact Hlen|]. split.
  - apply (Hfmt "/" Example.root); [simpl; tauto|reflexivity].
  - apply (Hfmt "/bin" Example.bin_link); [simpl; tauto|reflexivity].
Defined.

(** C1, as the specification has it, fails: the query of the first path
    fails, and the second path is never queried and nothing is written
    for it. *)
Lemma later_paths_are_not_queried :
  sys_lstat Example.system "/missing" = Err ENOENT /\
  (exists fi, sys_lstat Example.system "/" = Ok fi) /\
  ~ In "/" (queried (trace Example.system "stat" [] ["/missing"; "/"])) /\
  stdout_text (trace Example.system "stat" [] ["/missing"; "/"]) = "".
Proof.
  split; [reflexivity|]. split; [eexists; reflexivity|]. split.
  - vm_compute. intros [H|[]]. discriminate H.
  - reflexivity.
Qed.




(** The status is read from [errno] after [perror] has run: with the
    error stream closed, [perror] leaves EBADF and the run on a missing
    path exits with 9, not with ENOENT. *)
Example status_after_perror_on_a_closed_stream :
  sys_lstat Example.closed_stderr "/missing" = Err ENOENT /\
  exit_status Example.closed_stderr "stat" [] ["/missing"] = EBADF.
Proof. split; reflexivity. Qed.

(** ** File types *)

Lemma has_kind_total (m : Z) : exists k, Spec.has_kind m k.
Proof.
  destruct (Z.eq_dec (Z.land m S_IFMT) S_IFIFO); [exists Spec.Fifo; assumption|].
  destruct (Z.eq_dec (Z.land m S_IFMT) S_IFCHR); [exists Spec.CharacterDevice; assumption|].
  destruct (Z.eq_dec (Z.land m S_IFMT) S_IFDIR); [exists Spec.Directory; assumption|].
  destruct (Z.eq_dec (Z.land m S_IFMT) S_IFBLK); [exists Spec.BlockDevice; assumption|].
  destruct (Z.eq_dec (Z.land m S_IFMT) S_IFREG); [exists Spec.Regular; assumption|].
  destruct (Z.eq_dec (Z.land m S_IFMT) S_IFLNK); [exists Spec.Symlink; assumption|].
  destruct (Z.eq_dec (Z.land m S_IFMT) S_IFSOCK); [exists Spec.Socket; assumption|].
  destruct (Z.eq_dec (Z.land m S_IFMT) S_IFDOOR); [exists Spec.Door; assumption|].
  destruct (Z.eq_dec (Z.land m S_IFMT) S_IFPORT); [exists Spec.EventPort; assumption|].
  exists Spec.Other. intros k' Hk'. destruct k'; simpl; congruence.
Qed.

(** C7.  The type label and the type character of a mode are those of
    the fixed mapping: of the kind whose code the type bits of the mode
    are, and "<unknown>" and '?' when they are the code of no kind. *)
Theorem file_type_mapping (st_mode : Z) (k : Spec.kind) :
  Spec.has_kind st_mode k ->
  file_type st_mode = Spec.label k /\ file_type_char st_mode = Spec.letter k.
Proof.
  intros H. unfold file_type, file_type_char.
  destruct k; cbn [Spec.has_kind] in H;
    try (rewrite H; split; reflexivity).
  assert (Hne : forall k', k' <> Spec.Other ->
                           (Z.land st_mode S_IFMT =? Spec.code k') = false).
  { intros k' Hk'. apply Z.eqb_neq. apply H. exact Hk'. }
  cbv zeta.
  not_of_kind Hne Spec.Fifo. not_of_kind Hne Spec.CharacterDevice.
  not_of_kind Hne Spec.Directory. not_of_kind Hne Spec.BlockDevice.
  not_of_kind Hne Spec.Regular. not_of_kind Hne Spec.Symlink.
  not_of_kind Hne Spec.Socket. not_of_kind Hne Spec.Door.
  not_of_kind Hne Spec.EventPort.
  split; reflexivity.
Qed.

Lemma file_type_mapping_witness :
  Spec.has_kind 0xD1A4 Spec.Door /\
  file_type 0xD1A4 = "door" /\ file_type_char 0xD1A4 = "D"%char.
Proof.
  assert (H : Spec.has_kind 0xD1A4 Spec.Door) by reflexivity.
  split; [exact H|]. exact (file_type_mapping 0xD1A4 Spec.Door H).
Defined.

(** The nine kinds and the rest, on modes of each type. *)
Example file_type_table :
  map (fun m => (file_type m, file_type_char m))
      [0x11A4; 0x21A4; 0x41ED; 0x61A4; 0x81A4; 0xA1FF; 0xC1ED; 0xD1A4; 0xE1A4;
       0x01A4; 0x31A4; 0xF1A4] =
  [ ("named fifo", "p"%char); ("character device", "c"%char); ("directory", "d"%char);
    ("block device", "b"%char); ("regular file", "-"%char); ("symbolic link", "l"%char);
    ("socket", "s"%char); ("door", "D"%char); ("event port", "P"%char);
    ("<unknown>", "?"%char); ("<unknown>", "?"%char); ("<unknown>", "?"%char) ].
Proof. reflexivity. Qed.

Lemma is_symlink_kind (m : Z) :
  is_symlink m = true <-> Spec.has_kind m Spec.Symlink.
Proof. unfold is_symlink. cbn [Spec.has_kind Spec.code]. apply Z.eqb_eq. Qed.

(** ** The symbolic mode *)

Lemma land_pow2 (m k : Z) :
  0 <= k -> Z.land m (2 ^ k) = if Z.testbit m k then 2 ^ k else 0.
Proof.
  intros Hk. apply Z.bits_inj'. intros i Hi.
  rewrite Z.land_spec, Z.pow2_bits_eqb by exact Hk.
  destruct (Z.eqb_spec k i) as [->|Hne].
  - rewrite andb_true_r. destruct (Z.testbit m i) eqn:Hb.
    + rewrite Z.pow2_bits_true by exact Hi. reflexivity.
    + rewrite Z.bits_0. reflexivity.
  - rewrite andb_false_r. destruct (Z.testbit m k).
    + rewrite Z.pow2_bits_false by exact Hne. reflexivity.
    + rewrite Z.bits_0. reflexivity.
Qed.

Lemma c_true_bit (m mask k : Z) :
  mask = 2 ^ k -> 0 <= k -> c_true (Z.land m mask) = Z.testbit m k.
Proof.
  intros -> Hk. unfold c_true. rewrite (land_pow2 m k Hk).
  destruct (Z.testbit m k); [|reflexivity].
  apply negb_true_iff, Z.eqb_neq.
  apply Z.neq_sym, Z.lt_neq, Z.pow_pos_nonneg; [reflexivity|exact Hk].
Qed.

Lemma set_bits_outside (m extra mask : Z) :
  Z.land extra mask = 0 -> Z.land (Z.lor m extra) mask = Z.land m mask.
Proof.
  intros H. rewrite Z.land_lor_distr_l, H, Z.lor_0_r. reflexivity.
Qed.

Lemma symbolic_mode_length (m : Z) : String.length (symbolic_mode m) = 10%nat.
Proof. reflexivity. Qed.

(** The owner and group triplets are those of the specification. *)
Lemma user_perms_spec (m : Z) :
  user_perms m = Spec.triplet m 8 7 6 11 "s" "S".
Proof.
  unfold user_perms, Spec.triplet.
  rewrite (c_true_bit m S_IRUSR 8), (c_true_bit m S_IWUSR 7),
    (c_true_bit m S_IXUSR 6), (c_true_bit m S_ISUID 11) by (reflexivity || lia).
  destruct (Z.testbit m 11), (Z.testbit m 6); reflexivity.
Qed.

Lemma group_perms_spec (m : Z) :
  group_perms m = Spec.triplet m 5 4 3 10 "s" "S".
Proof.
  unfold group_perms, Spec.triplet.
  rewrite (c_true_bit m S_IRGRP 5), (c_true_bit m S_IWGRP 4),
    (c_true_bit m S_IXGRP 3), (c_true_bit m S_ISGID 10) by (reflexivity || lia).
  destruct (Z.testbit m 10), (Z.testbit m 3); reflexivity.
Qed.

(** The last triplet is the one of the specification on the modes whose
    sticky bit is clear. *)
Lemma other_perms_spec (m : Z) :
  Z.testbit m 9 = false ->
  other_perms m = Spec.triplet m 2 1 0 9 "t" "T".
Proof.
  intros Hsticky.
  unfold other_perms, Spec.triplet.
  rewrite (c_true_bit m S_IROTH 2), (c_true_bit m S_IWOTH 1),
    (c_true_bit m S_IXOTH 0) by (reflexivity || lia).
  rewrite Hsticky. destruct (Z.testbit m 0); reflexivity.
Qed.

Lemma symbolic_mode_spec (m : Z) :
  Z.testbit m 9 = false ->
  symbolic_mode m = Spec.symbolic (file_type_char m) m.
Proof.
  intros Hsticky. unfold symbolic_mode, Spec.symbolic.
  rewrite user_perms_spec, group_perms_spec, (other_perms_spec m Hsticky).
  reflexivity.
Qed.

(** The three modes that the specification names render as it says. *)
Example symbolic_mode_examples :
  symbolic_mode 0x81ED = "-rwxr-xr-x" /\
  symbolic_mode 0x89ED = "-rwsr-xr-x" /\
  symbolic_mode 0x89AD = "-rwSr-xr-x".
Proof. repeat split; reflexivity. Qed.

(** C2 at the modes where it fails.  [other_perms] has no case for the
    sticky bit: setting it changes nothing in the symbolic mode, so the
    mode 01777 of a directory renders as [drwxrwxrwx] where the
    specification asks for [drwxrwxrwt], and 01776 as [drwxrwxrw-] where
    it asks for [drwxrwxrwT]. *)
Theorem sticky_bit_is_not_rendered :
  (forall m, symbolic_mode (Z.lor m S_ISVTX) = symbolic_mode m) /\
  symbolic_mode 0x43FF = "drwxrwxrwx" /\
  Spec.symbolic (file_type_char 0x43FF) 0x43FF = "drwxrwxrwt" /\
  symbolic_mode 0x43FE = "drwxrwxrw-" /\
  Spec.symbolic (file_type_char 0x43FE) 0x43FE = "drwxrwxrwT".
Proof.
  split; [|repeat split; reflexivity].
  intros m.
  unfold symbolic_mode, file_type_char, user_perms, group_perms, other_perms.
  rewrite !(set_bits_outside m S_ISVTX) by reflexivity. reflexivity.
Qed.

(** ** The permissions line *)

Lemma append_assoc (a b c : string) : (a ++ b) ++ c = a ++ b ++ c.
Proof. induction a as [|x a IH]; [reflexivity|]. simpl. rewrite IH. reflexivity. Qed.

Lemma append_nil_r (a : string) : a ++ "" = a.
Proof. induction a as [|x a IH]; [reflexivity|]. simpl. rewrite IH. reflexivity. Qed.

(** Both sides of an equation of texts, nested to the right. *)
Ltac flatten := repeat rewrite append_assoc; cbn [append].

Lemma access_bits_range (m : Z) : 0 <= Z.land m S_IAMB < 512.
Proof.
  change S_IAMB with (Z.ones 9). rewrite Z.land_ones by lia.
  apply Z.mod_pos_bound. reflexivity.
Qed.

Lemma octal_field_digits (m : Z) :
  octal_field m =
  String "0" (str3 (digit_char (Z.land m S_IAMB / 64))
                   (digit_char (Z.land m S_IAMB / 8 mod 8))
                   (digit_char (Z.land m S_IAMB mod 8))).
Proof.
  unfold octal_field. pose proof (access_bits_range m) as Hv.
  apply String.eqb_eq.
  apply (range_all_spec
           (fun v => String.eqb
                       (pad_left "0" 4 (fmt_o (cast_int v)))
                       (String "0" (str3 (digit_char (v / 64))
                                         (digit_char (v / 8 mod 8))
                                         (digit_char (v mod 8)))))
           512 0); [vm_compute; reflexivity|exact Hv].
Qed.


(** C4, as the program has it.  When the owner's user id, or group id,
    has no entry in its identity database, the permissions line prints
    the numeric id and the literal text [<unknown>], with its angle
    brackets, in place of the name. *)
Theorem unresolved_id_prints_bracketed_unknown (w : world)
        (finfo : struct_stat) (k : id_kind) :
  id_entry w k (owner_id k finfo) = None ->
  exists before after,
    permissions_line w finfo =
    before ++ id_label k ++
    "(" ++ pad_left " " 5 (fmt_d (cast_int (owner_id k finfo))) ++
    "/<unknown>)" ++ after.
Proof.
  intros H. destruct k; cbn [id_entry owner_id id_label] in *.
  - exists ("Access: (" ++ octal_field (st_mode finfo) ++ "/" ++
            symbolic_mode (st_mode finfo) ++ ")  "),
           ("   Gid: " ++
            id_field (st_gid finfo) (get_gid_string w (st_gid finfo)) ++ NL).
    unfold permissions_line, symbolic_mode, id_field at 1, get_uid_string.
    rewrite H. flatten. reflexivity.
  - exists ("Access: (" ++ octal_field (st_mode finfo) ++ "/" ++
            symbolic_mode (st_mode finfo) ++ ")  Uid: " ++
            id_field (st_uid finfo) (get_uid_string w (st_uid finfo)) ++ "   "),
           NL.
    unfold permissions_line, symbolic_mode, id_field at 2, get_gid_string.
    rewrite H. flatten. reflexivity.
Qed.

Lemma unresolved_id_prints_bracketed_unknown_witness :
  id_entry Example.system Group (owner_id Group Example.orphan) = None /\
  exists before after,
    permissions_line Example.system Example.orphan =
    before ++ id_label Group ++
    "(" ++ pad_left " " 5 (fmt_d (cast_int (owner_id Group Example.orphan))) ++
    "/<unknown>)" ++ after.
Proof.
  assert (H : id_entry Example.system Group (owner_id Group Example.orphan) = None)
    by reflexivity.
  split; [exact H|].
  exact (unresolved_id_prints_bracketed_unknown Example.system Example.orphan Group H).
Defined.

(** C4, as the specification has it, fails: the file [/export/orphan]
    belongs to the user 4242, who has no entry; the name printed with the
    id is not [unknown], and the line does not hold the owner field that
    the name [unknown] would give. *)
Lemma unresolved_name_is_not_plain_unknown :
  pw_entry Example.system (st_uid Example.orphan) = None /\
  get_uid_string Example.system (st_uid Example.orphan) <> "unknown" /\
  contains (id_field (st_uid Example.orphan) "unknown")
           (permissions_line Example.system Example.orphan) = false /\
  permissions_line Example.system Example.orphan =
  "Access: (0644/-rw-r--r--)  Uid: ( 4242/<unknown>)   Gid: ( 4343/<unknown>)" ++ NL.
Proof.
  split; [reflexivity|]. split; [discriminate|]. split; reflexivity.
Qed.

(** ** With and without [-L] *)

Lemma output_app (t1 t2 : list event) :
  output (t1 ++ t2) = (output t1 ++ output t2)%list.
Proof. apply filter_app. Qed.

Lemma output_call follow p (t : list event) :
  output (call follow p :: t) = output t.
Proof. destruct follow; reflexivity. Qed.

(** On arguments for which [stat] and [lstat] answer alike, the two
    loops end with the same status and memory and write the same text. *)
Lemma stat_loop_agree (w : world) :
  forall args rc g,
    (forall p, In p args -> sys_stat w p = sys_lstat w p) ->
    fst (stat_loop w (stat w) rc args g) = fst (stat_loop w (lstat w) rc args g) /\
    output (snd (stat_loop w (stat w) rc args g)) =
    output (snd (stat_loop w (lstat w) rc args g)).
Proof.
  induction args as [|p rest IH]; intros rc g Hsame.
  - split; reflexivity.
  - cbn [stat_loop]. destruct (rc =? 0); [|split; reflexivity].
    pose proof (Hsame p (or_introl eq_refl)) as Hp.
    assert (Hrest : forall q, In q rest -> sys_stat w q = sys_lstat w q)
      by (intros q Hq; apply Hsame; right; exact Hq).
    unfold bind.
    destruct (sys_lstat w p) as [fi|e] eqn:Hl.
    + rewrite (stat_one_ok w true p rc g fi Hp), (stat_one_ok w false p rc g fi Hl).
      destruct (IH rc (fst (identity_step w p fi (stamped w fi g))) Hrest) as [H1 H2].
      destruct (stat_loop w (stat w) rc rest _) as [[r1 g1] t1].
      destruct (stat_loop w (lstat w) rc rest _) as [[r2 g2] t2].
      cbn [fst snd] in *. split; [exact H1|].
      rewrite <- !app_comm_cons, !output_call, !output_app, H2. reflexivity.
    + rewrite (stat_one_err w true p rc g e Hp), (stat_one_err w false p rc g e Hl).
      destruct (IH (perror_errno w e) (set_errno (perror_errno w e) g) Hrest)
        as [H1 H2].
      destruct (stat_loop w (stat w) (perror_errno w e) rest _) as [[r1 g1] t1].
      destruct (stat_loop w (lstat w) (perror_errno w e) rest _) as [[r2 g2] t2].
      cbn [fst snd] in *. split; [exact H1|].
      rewrite <- !app_comm_cons, !output_call.
      cbn [output filter is_output]. f_equal. exact H2.
Qed.

(** C6.  On regular files, for which [stat] and [lstat] give the same
    metadata since there is no link to follow, the program writes the
    same text and exits with the same status with [-L] and without. *)
Theorem dereference_changes_nothing_for_regular_files
        (w : world) (exe : string) (paths : list string) :
  (forall p, In p paths ->
     exists fi, sys_lstat w p = Ok fi /\
                Z.land (st_mode fi) S_IFMT = S_IFREG /\
                sys_stat w p = Ok fi) ->
  output (trace w exe ["L"%char] paths) = output (trace w exe [] paths) /\
  exit_status w exe ["L"%char] paths = exit_status w exe [] paths.
Proof.
  intros Hreg. unfold exit_status, trace.
  destruct paths as [|p rest].
  - rewrite (run_no_paths w exe _ no_help_L), (run_no_paths w exe _ no_help_nil).
    split; reflexivity.
  - rewrite (run_paths w exe _ p rest no_help_L),
      (run_paths w exe _ p rest no_help_nil).
    change (dereference ["L"%char]) with true.
    change (dereference []) with false.
    change (diagnostics w ["L"%char]) with (@nil event).
    change (diagnostics w []) with (@nil event). cbn [fst snd app].
    destruct (stat_loop_agree w (p :: rest) 0 (initial w)) as [H1 H2].
    { intros q Hq. destruct (Hreg q Hq) as (fi & Hl & _ & Hs). congruence. }
    rewrite H1, H2. split; reflexivity.
Qed.

Lemma dereference_changes_nothing_for_regular_files_witness :
  (forall p, In p ["/etc/passwd"; "/export/orphan"] ->
     exists fi, sys_lstat Example.system p = Ok fi /\
                Z.land (st_mode fi) S_IFMT = S_IFREG /\
                sys_stat Example.system p = Ok fi) /\
  output (trace Example.system "stat" ["L"%char] ["/etc/passwd"; "/export/orphan"]) =
  output (trace Example.system "stat" [] ["/etc/passwd"; "/export/orphan"]) /\
  exit_status Example.system "stat" ["L"%char] ["/etc/passwd"; "/export/orphan"] =
  exit_status Example.system "stat" [] ["/etc/passwd"; "/export/orphan"].
Proof.
  assert (H : forall p, In p ["/etc/passwd"; "/export/orphan"] ->
                exists fi, sys_lstat Example.system p = Ok fi /\
                           Z.land (st_mode fi) S_IFMT = S_IFREG /\
                           sys_stat Example.system p = Ok fi)
    by (intros p [<-|[<-|[]]]; eexists; repeat split; reflexivity).
  split; [exact H|].
  exact (dereference_changes_nothing_for_regular_files Example.system "stat"
           ["/etc/passwd"; "/export/orphan"] H).
Defined.

(** ** Symbolic links *)

Lemma take_all (l : string) :
  forall n, (String.length l <= n)%nat -> take n l = l.
Proof.
  induction l as [|c l IH]; intros n Hn.
  - destruct n; reflexivity.
  - destruct n as [|n]; [simpl in Hn; lia|].
    simpl. rewrite IH by (simpl in Hn; lia). reflexivity.
Qed.

(** A text without NUL is printed whole, and then what follows it in
    memory up to the first NUL. *)
Lemma cstr_app (l r : string) : cstr l = l -> cstr (l ++ r) = l ++ cstr r.
Proof.
  induction l as [|c l IH]; intros Hl; [reflexivity|].
  simpl in *. destruct (Ascii.eqb c NUL); [discriminate Hl|].
  injection Hl as Hl. rewrite (IH Hl). reflexivity.
Qed.

Lemma run_single (w : world) (exe : string) (opts : list ascii) (p : string) :
  no_help opts ->
  run w exe opts [p] =
  (fst (fst (stat_one w (if dereference opts then stat w else lstat w) p 0
                      (initial w))),
   (diagnostics w opts ++
    snd (stat_one w (if dereference opts then stat w else lstat w) p 0
                  (initial w)))%list).
Proof.
  intros Hno. rewrite (run_paths w exe opts p [] Hno).
  destruct (stat_one w _ p 0 (initial w)) as [[rc1 g1] t1] eqn:H1.
  rewrite (stat_loop_cons _ _ _ _ _ _ _ _ H1). cbn [stat_loop ret fst snd].
  rewrite app_nil_r. reflexivity.
Qed.

Lemma stat_one_begins_with_call (w : world) (follow : bool) (p : string)
      (rc : Z) (g : memory) :
  exists t,
    snd (stat_one w (if follow then stat w else lstat w) p rc g) =
    call follow p :: t.
Proof.
  destruct (query w follow p) as [fi|e] eqn:Hq.
  - rewrite (stat_one_ok w follow p rc g fi Hq). eexists. reflexivity.
  - rewrite (stat_one_err w follow p rc g e Hq). eexists. reflexivity.
Qed.

(** After a turn that succeeds the loop goes on to query the next
    argument. *)
Lemma next_path_is_queried (w : world) (exe : string) (opts : list ascii)
      (p q : string) (rest : list string) (fi : struct_stat) :
  no_help opts ->
  query w (dereference opts) p = Ok fi ->
  exists tl, queried (trace w exe opts (p :: q :: rest)) = p :: q :: tl.
Proof.
  intros Hno Hq. unfold trace. rewrite (run_paths w exe opts p _ Hno). cbn [snd].
  rewrite queried_app, queried_diagnostics. cbn [app].
  destruct (turn_ok_views w (dereference opts) p 0 (initial w) fi Hq)
    as (g1 & t1 & H1 & Hq1 & _).
  rewrite (stat_loop_cons _ _ _ _ _ _ _ _ H1).
  destruct (stat_one_begins_with_call w (dereference opts) q 0 g1) as [t Ht].
  destruct (stat_one w _ q 0 g1) as [[rc2 g2] t2] eqn:H2. cbn [snd] in Ht. subst t2.
  rewrite (stat_loop_cons _ _ _ _ _ _ _ _ H2).
  destruct (stat_loop w _ rc2 rest g2) as [[rc3 g3] t3].
  exists (queried (t ++ t3)). cbn [snd].
  rewrite queried_app, Hq1.
  change ((call (dereference opts) q :: t) ++ t3)%list
    with ([call (dereference opts) q] ++ (t ++ t3))%list.
  rewrite queried_app, queried_call. reflexivity.
Qed.

(** X13.  For a path that [lstat] reports as a symbolic link:
    - without [-L] the record is the link's own, of type character [l]
      and label [symbolic link], and its identity line carries the arrow
      and the link text (followed by whatever the unterminated buffer
      holds after it up to the first NUL, nothing when that is a NUL);
    - when [readlink] fails the identity line carries the placeholder,
      the other lines of the record are printed all the same, the status
      stays 0 and the next argument is queried;
    - with [-L], when the link resolves to a target (which is no link),
      the record is the target's and the identity line has no arrow. *)
Lemma symlink_rendering (w : world) (exe : string) (p : string)
        (link : struct_stat) :
  sys_lstat w p = Ok link ->
  is_symlink (st_mode link) = true ->
  (file_type (st_mode link) = "symbolic link" /\
   file_type_char (st_mode link) = "l"%char) /\
  (forall l,
     sys_readlink w p = Ok l -> cstr l = l -> (String.length l <= MAXPATHLEN)%nat ->
     run w exe [] [p] =
     (0, ([Call_lstat p; Call_readlink p;
           Stdout (identity_line_link p
                     (l ++ cstr (drop (String.length l) (stack_junk w))))] ++
          record_events w link (stamped w link (initial w)))%list)) /\
  (forall e,
     sys_readlink w p = Err e ->
     run w exe [] [p] =
     (0, ([Call_lstat p; Call_readlink p;
           Stdout (identity_line_unreadable p)] ++
          record_events w link (stamped w link (initial w)))%list) /\
     forall q rest, exists tl,
       queried (trace w exe [] (p :: q :: rest)) = p :: q :: tl) /\
  (forall tgt,
     sys_stat w p = Ok tgt -> is_symlink (st_mode tgt) = false ->
     run w exe ["L"%char] [p] =
     (0, ([Call_stat p; Stdout (identity_line p)] ++
          record_events w tgt (stamped w tgt (initial w)))%list)).
Proof.
  intros Hl Hlink. split; [|split; [|split]].
  - pose proof Hlink as Hbits. unfold is_symlink in Hbits.
    apply Z.eqb_eq in Hbits.
    unfold file_type, file_type_char. rewrite Hbits. split; reflexivity.
  - intros l Hr Hnul Hlen.
    rewrite (run_single w exe [] p no_help_nil).
    change (diagnostics w []) with (@nil event). cbn [app].
    change (if dereference [] then stat w else lstat w) with (lstat w).
    rewrite (stat_one_ok w false p 0 (initial w) link Hl).
    unfold identity_step. rewrite Hlink, Hr. cbn [fst snd].
    rewrite (take_all l _ Hlen), (cstr_app _ _ Hnul). reflexivity.
  - intros e Hr. split.
    + rewrite (run_single w exe [] p no_help_nil).
      change (diagnostics w []) with (@nil event). cbn [app].
      change (if dereference [] then stat w else lstat w) with (lstat w).
      rewrite (stat_one_ok w false p 0 (initial w) link Hl).
      unfold identity_step. rewrite Hlink, Hr. reflexivity.
    + intros q rest.
      apply (next_path_is_queried w exe [] p q rest link no_help_nil). exact Hl.
  - intros tgt Hs Hnot.
    rewrite (run_single w exe ["L"%char] p no_help_L).
    change (diagnostics w ["L"%char]) with (@nil event). cbn [app].
    change (if dereference ["L"%char] then stat w else lstat w) with (stat w).
    rewrite (stat_one_ok w true p 0 (initial w) tgt Hs).
    unfold identity_step. rewrite Hnot. reflexivity.
Qed.

(** The link [/bin] of the example, on a stack that holds nothing. *)
Example symlink_without_and_with_L :
  stdout_text (trace Example.system "stat" [] ["/bin"]) =
    "  File: `/bin' -> `./usr/bin'" ++ NL ++
    "  Size: 9         " ++ TAB ++ "Blocks: 1          IO Block: 8192 symbolic link" ++ NL ++
    "Device: 1540001h/22282241d Inode: 31         Links: 1" ++ NL ++
    "Access: (0777/lrwxrwxrwx)  Uid: (    0/    root)   Gid: (    0/    root)" ++ NL ++
    "Access: 2018-02-01 10:46:42-0500" ++ NL ++
    "Modify: 2018-01-15 02:06:42-0500" ++ NL ++
    "Change: 2018-01-15 02:06:42-0500" ++ NL /\
  stdout_text (trace Example.system "stat" ["L"%char] ["/bin"]) =
    "  File: `/bin'" ++ NL ++
    "  Size: 1024      " ++ TAB ++ "Blocks: 2          IO Block: 8192 directory" ++ NL ++
    "Device: 1540001h/22282241d Inode: 77         Links: 4" ++ NL ++
    "Access: (0755/drwxr-xr-x)  Uid: (    0/    root)   Gid: (    2/     bin)" ++ NL ++
    "Access: 2018-02-01 10:46:41-0500" ++ NL ++
    "Modify: 2018-01-15 02:06:41-0500" ++ NL ++
    "Change: 2018-01-15 02:06:41-0500" ++ NL.
Proof. split; reflexivity. Qed.

(** A link whose text cannot be read. *)
Example unreadable_link_target :
  hd_error (output (trace Example.system "stat" [] ["/proc/1/cwd"; "/"])) =
    Some (Stdout ("  File: `/proc/1/cwd' -> <unable to read target>" ++ NL)) /\
  queried (trace Example.system "stat" [] ["/proc/1/cwd"; "/"]) =
    ["/proc/1/cwd"; "/"] /\
  exit_status Example.system "stat" [] ["/proc/1/cwd"; "/"] = 0.
Proof. repeat split; reflexivity. Qed.

(** C5 at an input where it fails.  [readlink] does not terminate
    [target], and [main] prints it with [%s].  In the run on [/usr/tmp]
    and [/bin], two links to [../var/tmp] and [./usr/bin], the identity
    line of [/bin] shows its link text followed by the last character
    that the turn before left in the buffer; a stack that earlier calls
    have written on does the same to a single link. *)
Theorem link_target_is_not_terminated :
  sys_readlink Example.system "/bin" = Ok "./usr/bin" /\
  In (Stdout (identity_line_link "/bin" "./usr/binp"))
     (trace Example.system "stat" [] ["/usr/tmp"; "/bin"]) /\
  ~ In (Stdout (identity_line_link "/bin" "./usr/bin"))
       (trace Example.system "stat" [] ["/usr/tmp"; "/bin"]) /\
  In (Stdout (identity_line_link "/bin" "./usr/binld.so.1"))
     (trace Example.used_stack "stat" [] ["/bin"]).
Proof.
  split; [reflexivity|]. split; [|split].
  - vm_compute. tauto.
  - vm_compute. intros H.
    repeat (destruct H as [H|H]; [discriminate H|]). exact H.
  - vm_compute. tauto.
Qed.

(** ** Timestamps *)

Lemma is_digit_digit (d : Z) :
  0 <= d < 10 -> Spec.is_digit (Spec.digit d) = true.
Proof.
  intros Hd.
  apply (range_all_spec (fun d => Spec.is_digit (Spec.digit d)) 10 0);
    [reflexivity|exact Hd].
Qed.

Lemma two_digits_dd (n : Z) : 0 <= n < 100 -> two_digits n = Spec.dd n.
Proof.
  intros Hn. apply String.eqb_eq.
  apply (range_all_spec (fun n => String.eqb (two_digits n) (Spec.dd n)) 100 0);
    [vm_compute; reflexivity|exact Hn].
Qed.

Lemma year_dddd (y : Z) : 1000 <= y <= 9999 -> fmt_d y = Spec.dddd y.
Proof.
  intros Hy. apply String.eqb_eq.
  apply (range_all_between (fun y => String.eqb (fmt_d y) (Spec.dddd y)) 1000 10000);
    [vm_compute; reflexivity|lia].
Qed.

Lemma dd_matches (n : Z) (shape : list (ascii -> bool)) (rest : string) :
  0 <= n < 100 ->
  Spec.matches (Spec.is_digit :: Spec.is_digit :: shape) (Spec.dd n ++ rest) =
  Spec.matches shape rest.
Proof.
  intros Hn. unfold Spec.dd. cbn [append Spec.matches].
  rewrite !is_digit_digit; [reflexivity| |].
  - apply Z.mod_pos_bound. reflexivity.
  - split; [apply Z.div_pos; lia|apply Z.div_lt_upper_bound; lia].
Qed.

Lemma expand_time_format (w : world) (t : struct_tm) :
  expand w time_format t =
  conversion w "Y" t ++ "-" ++ conversion w "m" t ++ "-" ++ conversion w "d" t ++
  " " ++ conversion w "H" t ++ ":" ++ conversion w "M" t ++ ":" ++
  conversion w "S" t ++ conversion w "z" t.
Proof.
  unfold time_format. cbn [expand Ascii.eqb Bool.eqb].
  rewrite append_nil_r. reflexivity.
Qed.

Lemma offset_hours_minutes (w : world) (t : struct_tm) :
  zone_ok w ->
  0 <= Z.abs (utc_offset w t) / 3600 < 100 /\
  0 <= Z.abs (utc_offset w t) / 60 mod 60 < 100.
Proof.
  intros [Hs Ha].
  assert (Hoff : 0 <= Z.abs (utc_offset w t) < 86400).
  { unfold utc_offset. destruct (0 <? tm_isdst t);
      rewrite Z.abs_opp; split; try apply Z.abs_nonneg; assumption. }
  split.
  - split; [apply Z.div_pos; lia|apply Z.div_lt_upper_bound; lia].
  - pose proof (Z.mod_pos_bound (Z.abs (utc_offset w t) / 60) 60 eq_refl). lia.
Qed.

(** Under the ranges of [civil] the expansion of the format is the
    timestamp of the specification. *)
Lemma expand_is_timestamp (w : world) (t : struct_tm) :
  zone_ok w -> civil t ->
  expand w time_format t = tm_timestamp w t.
Proof.
  intros Hz (Hsec & Hmin & Hhour & Hday & Hmon & Hyear & Hdst).
  destruct (offset_hours_minutes w t Hz) as [Hh Hm].
  rewrite expand_time_format. unfold conversion. cbn [Ascii.eqb Bool.eqb].
  apply Z.ltb_ge in Hdst. rewrite Hdst.
  unfold tm_timestamp, Spec.timestamp. fold (utc_offset w t).
  rewrite (year_dddd _ Hyear).
  rewrite !two_digits_dd by lia.
  flatten. reflexivity.
Qed.

Lemma timestamp_length (w : world) (t : struct_tm) :
  String.length (tm_timestamp w t) = 24%nat.
Proof.
  unfold tm_timestamp, Spec.timestamp.
  destruct (utc_offset w t <? 0); reflexivity.
Qed.

Lemma separator_matches (c : ascii) (shape : list (ascii -> bool)) (rest : string) :
  Spec.matches (Ascii.eqb c :: shape) (String c rest) = Spec.matches shape rest.
Proof. cbn [Spec.matches]. rewrite Ascii.eqb_refl. reflexivity. Qed.

Lemma timestamp_shape (w : world) (t : struct_tm) :
  zone_ok w -> civil t -> Spec.is_timestamp (tm_timestamp w t) = true.
Proof.
  intros Hz (Hsec & Hmin & Hhour & Hday & Hmon & Hyear & Hdst).
  destruct (offset_hours_minutes w t Hz) as [Hh Hm].
  unfold Spec.is_timestamp, Spec.timestamp_shape, tm_timestamp, Spec.timestamp,
    Spec.dddd.
  assert (Hc : 0 <= (tm_year t + 1900) / 100 < 100)
    by (split; [apply Z.div_pos; lia|apply Z.div_lt_upper_bound; lia]).
  assert (Hy : 0 <= (tm_year t + 1900) mod 100 < 100)
    by (apply Z.mod_pos_bound; reflexivity).
  rewrite <- (append_nil_r (Spec.dd (Z.abs (utc_offset w t) / 60 mod 60))).
  rewrite append_assoc.
  assert (Hsign : forall shape rest,
             Spec.matches (Spec.is_sign :: shape)
               ((if utc_offset w t <? 0 then "-" else "+") ++ rest) =
             Spec.matches shape rest)
    by (intros shape rest; destruct (utc_offset w t <? 0); reflexivity).
  cbn [append].
  rewrite (dd_matches _ _ _ Hc), (dd_matches _ _ _ Hy), separator_matches.
  rewrite dd_matches, separator_matches by lia.
  rewrite dd_matches, separator_matches by lia.
  rewrite dd_matches, separator_matches by lia.
  rewrite dd_matches, separator_matches by lia.
  rewrite dd_matches by lia.
  rewrite Hsign, (dd_matches _ _ _ Hh), (dd_matches _ _ _ Hm).
  reflexivity.
Qed.

Lemma strftime_fits (w : world) (old : string) (t : struct_tm) :
  zone_ok w -> civil t ->
  strftime w old 32 time_format t = tm_timestamp w t.
Proof.
  intros Hz Hc. unfold strftime.
  rewrite (expand_is_timestamp w t Hz Hc), timestamp_length. reflexivity.
Qed.

(** C9.  When the time zone offsets stay within a day and [localtime_r]
    yields civil times with a year of four digits, each of the three
    global buffers holds, after [format_times], the local civil time of
    its timestamp written as YYYY-MM-DD HH:MM:SS±ZZZZ; the three lines
    Access, Modify and Change print them, and they are the last text of
    the record of a path.  The modification time 1516683698 of the
    comment at the head of [stat.c], five hours west of Greenwich, comes
    out as the literal [2018-01-23 00:01:38-0500]. *)
Theorem timestamps_follow_the_pattern (w : world) (finfo : struct_stat)
        (g : memory) :
  zone_ok w ->
  civil (localtime_r w (st_atime finfo)) ->
  civil (localtime_r w (st_mtime finfo)) ->
  civil (localtime_r w (st_ctime finfo)) ->
  times_text (stamped w finfo g) =
    "Access: " ++ tm_timestamp w (localtime_r w (st_atime finfo)) ++ NL ++
    "Modify: " ++ tm_timestamp w (localtime_r w (st_mtime finfo)) ++ NL ++
    "Change: " ++ tm_timestamp w (localtime_r w (st_ctime finfo)) ++ NL /\
  Spec.is_timestamp (atime_str (stamped w finfo g)) = true /\
  Spec.is_timestamp (mtime_str (stamped w finfo g)) = true /\
  Spec.is_timestamp (ctime_str (stamped w finfo g)) = true /\
  (forall (follow : bool) p rc,
     query w follow p = Ok finfo ->
     exists before,
       snd (stat_one w (if follow then stat w else lstat w) p rc g) =
       (before ++ [Stdout (times_text (stamped w finfo g))])%list) /\
  (st_mtime Example.root = 1516683698 /\
   timezone Example.system = 5 * 3600 /\
   mtime_str (stamped Example.system Example.root (initial Example.system)) =
     "2018-01-23 00:01:38-0500").
Proof.
  intros Hz Ha Hm Hc.
  unfold stamped at 1 2 3 4, format_times, times_text.
  cbn [fst snd atime_str mtime_str ctime_str].
  rewrite !strftime_fits by assumption.
  split; [reflexivity|].
  split; [apply timestamp_shape; assumption|].
  split; [apply timestamp_shape; assumption|].
  split; [apply timestamp_shape; assumption|].
  split; [|repeat split; vm_compute; reflexivity].
  intros follow p rc Hq.
  rewrite (stat_one_ok w follow p rc g finfo Hq). cbn [snd].
  exists (call follow p :: snd (identity_step w p finfo (stamped w finfo g)) ++
          [ Stdout (size_text finfo);
            Stdout (if is_device_type (st_mode finfo)
                    then device_text w finfo else NL);
            Stdout (permissions_line w finfo) ])%list.
  unfold record_events, stamped, format_times, times_text.
  cbn [fst snd atime_str mtime_str ctime_str].
  rewrite !strftime_fits by assumption.
  rewrite <- app_comm_cons, <- app_assoc. reflexivity.
Qed.

(** The modification time of the root directory in the comment at the
    head of [stat.c], 1516683698, five hours west of Greenwich. *)
Example fixed_modification_time :
  st_mtime Example.root = 1516683698 /\
  timezone Example.system = 5 * 3600 /\
  mtime_str (stamped Example.system Example.root (initial Example.system)) =
    "2018-01-23 00:01:38-0500" /\
  times_text (stamped Example.system Example.root (initial Example.system)) =
    "Access: 2018-02-01 11:05:32-0500" ++ NL ++
    "Modify: 2018-01-23 00:01:38-0500" ++ NL ++
    "Change: 2018-01-23 00:01:38-0500" ++ NL.
Proof. repeat split; reflexivity. Qed.

(** A zone east of Greenwich, and a time before 1970. *)
Example eastern_zone_and_early_time :
  let w := {| sys_stat := sys_stat Example.system;
              sys_lstat := sys_lstat Example.system;
              sys_readlink := sys_readlink Example.system;
              stack_junk := "";
              pw_entry := pw_entry Example.system;
              gr_entry := gr_entry Example.system;
              localtime_r := Example.zone_localtime (-19800);
              timezone := -19800; altzone := -19800;
              strerror := strerror Example.system;
              perror_errno := perror_errno Example.system;
              illegal_option := illegal_option Example.system;
              major := major Example.system; minor := minor Example.system |} in
  strftime w "" 32 time_format (localtime_r w (-1)) = "1970-01-01 05:29:59+0530" /\
  strftime w "" 32 time_format (localtime_r w (- 2 ^ 31)) = "1901-12-14 02:15:52+0530".
Proof. split; reflexivity. Qed.

(** With a [time_t] of 32 bits, the [localtime_r] of a zone of fixed
    offset yields civil times: the hypotheses of the theorem above are
    those of the platform. *)
Lemma zone_localtime_civil (west clock : Z) :
  -86400 < west < 86400 ->
  - 2 ^ 31 <= clock < 2 ^ 31 ->
  civil (Example.zone_localtime west clock).
Proof.
  intros Hw Hc.
  assert (Hdays : -24857 <= (clock - west) / 86400 < 24857).
  { change (2 ^ 31) with 2147483648 in Hc.
    split; [apply Z.div_le_lower_bound; lia|apply Z.div_lt_upper_bound; lia]. }
  assert (Hsecs : 0 <= (clock - west) mod 86400 < 86400)
    by (apply Z.mod_pos_bound; reflexivity).
  pose proof (range_all_between civil_day_ok (-24857) 24857
                ltac:(vm_compute; reflexivity) _ Hdays) as Hok.
  unfold civil_day_ok in Hok. unfold Example.zone_localtime.
  destruct (Example.civil_from_days ((clock - west) / 86400)) as [[y m] d].
  rewrite !andb_true_iff, !Z.leb_le in Hok.
  unfold civil. cbn [tm_sec tm_min tm_hour tm_mday tm_mon tm_year tm_isdst].
  set (secs := (clock - west) mod 86400) in *.
  assert (0 <= secs mod 60 < 60) by (apply Z.mod_pos_bound; reflexivity).
  assert (0 <= secs / 60 mod 60 < 60) by (apply Z.mod_pos_bound; reflexivity).
  assert (0 <= secs / 3600 < 24)
    by (split; [apply Z.div_pos; lia|apply Z.div_lt_upper_bound; lia]).
  lia.
Qed.

Lemma timestamps_follow_the_pattern_witness :
  zone_ok Example.system /\
  civil (localtime_r Example.system (st_atime Example.root)) /\
  civil (localtime_r Example.system (st_mtime Example.root)) /\
  civil (localtime_r Example.system (st_ctime Example.root)) /\
  times_text (stamped Example.system Example.root (initial Example.system)) =
    "Access: 2018-02-01 11:05:32-0500
Modify: 2018-01-23 00:01:38-0500
Change: 2018-01-23 00:01:38-0500
" /\
  Spec.is_timestamp
    (mtime_str (stamped Example.system Example.root (initial Example.system))) = true.
Proof.
  assert (Hz : zone_ok Example.system)
    by (unfold zone_ok; vm_compute; split; reflexivity).
  assert (Ha : civil (localtime_r Example.system (st_atime Example.root)))
    by (unfold civil; vm_compute; repeat split; discriminate).
  assert (Hm : civil (localtime_r Example.system (st_mtime Example.root)))
    by (unfold civil; vm_compute; repeat split; discriminate).
  assert (Hc : civil (localtime_r Example.system (st_ctime Example.root)))
    by (unfold civil; vm_compute; repeat split; discriminate).
  destruct (timestamps_follow_the_pattern Example.system Example.root
              (initial Example.system) Hz Ha Hm Hc) as (Ht & _ & Hs & _).
  split; [exact Hz|]. split; [exact Ha|]. split; [exact Hm|].
  split; [exact Hc|]. split; [exact Ht|exact Hs].
Defined.

(** * Further properties *)

(** ** Options *)

Lemma getopt_loop_help (w : world) (exe : string) (opts : list ascii) :
  In "h"%char opts ->
  forall follow g,
    getopt_loop w exe opts follow g =
    (None, g, (diagnostics w (before_help opts) ++ [Stdout (usage_text exe)])%list).
Proof.
  induction opts as [|c rest IH]; intros Hin follow g; [destruct Hin|].
  cbn [getopt_loop before_help]. unfold bind.
  destruct (Ascii.eqb c "h") eqn:Hh.
  - apply Ascii.eqb_eq in Hh. subst c. reflexivity.
  - assert (Hrest : In "h"%char rest).
    { destruct Hin as [Hc|Hin]; [subst c; discriminate Hh|exact Hin]. }
    cbn [diagnostics].
    destruct (Ascii.eqb c "L") eqn:HL.
    + rewrite getopt_long_recognised by (unfold recognised; rewrite HL; reflexivity).
      unfold recognised. rewrite HL. cbn [orb].
      rewrite (IH Hrest true). reflexivity.
    + rewrite getopt_long_unknown by (unfold recognised; rewrite HL, Hh; reflexivity).
      unfold recognised. rewrite HL, Hh. cbn [orb Ascii.eqb Bool.eqb].
      rewrite (IH Hrest follow). reflexivity.
Qed.

Lemma run_help (w : world) (exe : string) (opts : list ascii)
      (paths : list string) :
  In "h"%char opts ->
  run w exe opts paths =
  (0, (diagnostics w (before_help opts) ++ [Stdout (usage_text exe)])%list).
Proof.
  intros Hin. unfold run, main, bind.
  rewrite (getopt_loop_help w exe opts Hin). cbn [ret].
  rewrite app_nil_r. reflexivity.
Qed.

Lemma forallb_diagnostics (f : event -> bool) w opts :
  (forall s, f (Stderr s) = true) -> forallb f (diagnostics w opts) = true.
Proof.
  intros Hf. induction opts as [|c rest IH]; [reflexivity|].
  cbn [diagnostics]. destruct (recognised c); [exact IH|].
  cbn [forallb]. rewrite Hf, IH. reflexivity.
Qed.

Lemma stderr_diagnostics w opts :
  filter is_stderr (diagnostics w opts) = diagnostics w opts.
Proof.
  induction opts as [|c rest IH]; [reflexivity|].
  cbn [diagnostics]. destruct (recognised c); [exact IH|].
  cbn [filter is_stderr]. rewrite IH. reflexivity.
Qed.

Lemma stdout_diagnostics w opts : filter is_stdout (diagnostics w opts) = [].
Proof.
  induction opts as [|c rest IH]; [reflexivity|].
  cbn [diagnostics]. destruct (recognised c); exact IH.
Qed.

(** X1.  [-h] among the options ends the run during the option loop:
    the usage text, with the name of the program in it, is all that is
    written to standard output; no path is queried whatever the path
    arguments are; the exit status is 0; and the only other events are
    the diagnostics of [getopt_long] for the unknown options that come
    before the first [-h]. *)
Theorem help_ends_the_run (w : world) (exe : string) (opts : list ascii)
        (paths : list string) :
  In "h"%char opts ->
  run w exe opts paths =
    (0,
     (diagnostics w (before_help opts) ++
      [Stdout ("usage:" ++ NL ++ NL ++
               "  " ++ exe ++ " {options} <path> {<path> ..}" ++ NL ++ NL ++
               " options:" ++ NL ++ NL ++
               "  -h/--help            display this help and exit" ++ NL ++
               "  -L/--dereference     follow symlinks" ++ NL ++
               NL)])%list) /\
  queried (trace w exe opts paths) = [] /\
  ~ (exists p, In (Call_readlink p) (trace w exe opts paths)).
Proof.
  intros Hin. pose proof (run_help w exe opts paths Hin) as Hrun.
  unfold trace. rewrite Hrun. cbn [snd].
  split; [reflexivity|]. split.
  - rewrite queried_app, queried_diagnostics. reflexivity.
  - intros [p Hp]. apply in_app_or in Hp as [Hd|[H|[]]]; [|discriminate H].
    apply in_diagnostics in Hd. discriminate Hd.
Qed.

Lemma help_ends_the_run_witness :
  In "h"%char ["z"; "L"; "h"; "y"]%char /\
  run Example.system "stat" ["z"; "L"; "h"; "y"]%char ["/missing"; "/"] =
  (0, [Stderr "stat: illegal option -- z
";
       Stdout "usage:

  stat {options} <path> {<path> ..}

 options:

  -h/--help            display this help and exit
  -L/--dereference     follow symlinks

"]).
Proof.
  assert (Hin : In "h"%char ["z"; "L"; "h"; "y"]%char) by (simpl; tauto).
  split; [exact Hin|].
  exact (proj1 (help_ends_the_run Example.system "stat" _ ["/missing"; "/"] Hin)).
Defined.

(** X2.  Without [-h], the options count for the queries and the
    records only through the presence of [-L]: the run is the one with
    [-L] alone, or with no option, preceded by the diagnostics of
    [getopt_long] for the unknown options; repeating or reordering the
    options changes nothing else, and the exit status is the same. *)
Theorem options_select_the_query (w : world) (exe : string)
        (opts : list ascii) (paths : list string) :
  no_help opts ->
  exit_status w exe opts paths =
    exit_status w exe (if dereference opts then ["L"%char] else []) paths /\
  trace w exe opts paths =
    (diagnostics w opts ++
     trace w exe (if dereference opts then ["L"%char] else []) paths)%list.
Proof.
  intros Hno. unfold exit_status, trace, run.
  rewrite (main_no_help w exe opts paths _ Hno).
  destruct (dereference opts) eqn:Hd.
  - rewrite (main_no_help w exe ["L"%char] paths _ no_help_L).
    destruct paths; split; reflexivity.
  - rewrite (main_no_help w exe [] paths _ no_help_nil).
    destruct paths; split; reflexivity.
Qed.

Lemma options_select_the_query_witness :
  no_help ["?"; "L"; "x"; "L"]%char /\
  exit_status Example.system "stat" ["?"; "L"; "x"; "L"]%char ["/bin"; "/missing"] =
  exit_status Example.system "stat" ["L"%char] ["/bin"; "/missing"] /\
  trace Example.system "stat" ["?"; "L"; "x"; "L"]%char ["/bin"; "/missing"] =
  ([Stderr "stat: illegal option -- ?
";
    Stderr "stat: illegal option -- x
"] ++ trace Example.system "stat" ["L"%char] ["/bin"; "/missing"])%list.
Proof.
  assert (Hno : no_help ["?"; "L"; "x"; "L"]%char)
    by (intros [H|[H|[H|[H|[]]]]]; discriminate H).
  split; [exact Hno|].
  exact (options_select_the_query Example.system "stat" _ ["/bin"; "/missing"] Hno).
Defined.

(** ** The loop over the paths *)

(** One turn and the rest of the loop, by the outcome of the query. *)
Lemma stat_loop_step (w : world) (follow : bool) (p : string)
      (rest : list string) (g : memory) :
  stat_loop w (if follow then stat w else lstat w) 0 (p :: rest) g =
  match query w follow p with
  | Ok fi =>
      let g1 := fst (identity_step w p fi (stamped w fi g)) in
      let r := stat_loop w (if follow then stat w else lstat w) 0 rest g1 in
      (fst (fst r), snd (fst r),
       ((call follow p :: snd (identity_step w p fi (stamped w fi g)) ++
         record_events w fi (stamped w fi g)) ++ snd r)%list)
  | Err e =>
      let r := stat_loop w (if follow then stat w else lstat w)
                         (perror_errno w e) rest
                         (set_errno (perror_errno w e) g) in
      (fst (fst r), snd (fst r),
       ([call follow p;
         Stderr ("Unable to stat() file: " ++ strerror w e ++ NL)] ++ snd r)%list)
  end.
Proof.
  destruct (query w follow p) as [fi|e] eqn:Hq.
  - rewrite (stat_loop_cons _ _ _ _ _ _ _ _ (stat_one_ok w follow p 0 g fi Hq)).
    cbv zeta. destruct (stat_loop w _ 0 rest _) as [[rc2 g2] t2]. reflexivity.
  - rewrite (stat_loop_cons _ _ _ _ _ _ _ _ (stat_one_err w follow p 0 g e Hq)).
    cbv zeta. destruct (stat_loop w _ (perror_errno w e) rest _) as [[rc2 g2] t2].
    reflexivity.
Qed.

Lemma forallb_identity_step (f : event -> bool) w p fi g :
  (forall q, f (Call_readlink q) = true) ->
  (forall s, f (Stdout s) = true) ->
  forallb f (snd (identity_step w p fi g)) = true.
Proof.
  intros Hr Hs. unfold identity_step.
  destruct (is_symlink (st_mode fi)).
  - destruct (sys_readlink w p); cbn [snd forallb]; rewrite Hr, Hs; reflexivity.
  - cbn [snd forallb]. rewrite Hs. reflexivity.
Qed.

Lemma forallb_record_events (f : event -> bool) w fi g :
  (forall s, f (Stdout s) = true) ->
  forallb f (record_events w fi g) = true.
Proof.
  intros Hs. unfold record_events. cbn [forallb]. rewrite !Hs. reflexivity.
Qed.

(** A property of events that holds of the query of each path and of
    every text written holds of the whole trace of the loop. *)
Lemma stat_loop_forallb (f : event -> bool) (w : world) (follow : bool) :
  (forall p, f (call follow p) = true) ->
  (forall q, f (Call_readlink q) = true) ->
  (forall s, f (Stdout s) = true) ->
  (forall s, f (Stderr s) = true) ->
  forall args rc g,
    forallb f (snd (stat_loop w (if follow then stat w else lstat w) rc args g))
    = true.
Proof.
  intros Hc Hr Hs He. induction args as [|p rest IH]; intros rc g.
  - reflexivity.
  - destruct (Z.eq_dec rc 0) as [->|Hrc];
      [|rewrite stat_loop_stopped by exact Hrc; reflexivity].
    rewrite stat_loop_step. destruct (query w follow p) as [fi|e]; cbn [snd].
    + rewrite forallb_app. cbn [forallb]. rewrite forallb_app.
      rewrite Hc, forallb_identity_step, forallb_record_events, IH by assumption.
      reflexivity.
    + rewrite forallb_app. cbn [forallb]. rewrite Hc, He, IH. reflexivity.
Qed.

Lemma stat_loop_queried_prefix (w : world) (follow : bool) :
  forall args g,
    exists rest,
      args =
      (queried (snd (stat_loop w (if follow then stat w else lstat w) 0 args g))
       ++ rest)%list.
Proof.
  induction args as [|p rest IH]; intros g; [exists []; reflexivity|].
  rewrite stat_loop_step.
  destruct (query w follow p) as [fi|e]; cbn [snd].
  - destruct (IH (fst (identity_step w p fi (stamped w fi g)))) as [r Hr].
    exists r.
    rewrite <- app_comm_cons, app_comm_cons.
    change (call follow p :: ?x)%list with ([call follow p] ++ x)%list.
    rewrite !queried_app, queried_call, queried_identity_step.
    cbn [queried record_events app]. rewrite Hr at 1. reflexivity.
  - change ([call follow p; ?x] ++ ?t)%list
      with ([call follow p] ++ (x :: t))%list.
    rewrite queried_app, queried_call. cbn [queried app].
    destruct (Z.eq_dec (perror_errno w e) 0) as [->|He].
    + destruct (IH (set_errno 0 g)) as [r Hr]. exists r.
      rewrite Hr at 1. reflexivity.
    + rewrite stat_loop_stopped by exact He. exists rest. reflexivity.
Qed.

(** X3.  Whatever the options, the arguments and the file system, the paths
    that the program queries are the first of its path arguments, in
    their order and once each; and the queries are all made by [stat]
    when [-L] is given and all by [lstat] when it is not. *)
Theorem queries_are_a_prefix_of_the_paths (w : world) (exe : string)
        (opts : list ascii) (paths : list string) :
  (exists rest, paths = (queried (trace w exe opts paths) ++ rest)%list) /\
  forallb (permitted (dereference opts)) (trace w exe opts paths) = true.
Proof.
  unfold trace.
  destruct (in_dec ascii_dec "h"%char opts) as [Hh|Hno].
  { rewrite (run_help w exe opts paths Hh). cbn [snd].
    rewrite queried_app, queried_diagnostics, forallb_app,
      forallb_diagnostics by reflexivity.
    split; [exists paths|]; reflexivity. }
  destruct paths as [|p0 rest0].
  { rewrite (run_no_paths w exe opts Hno). cbn [snd].
    rewrite queried_app, queried_diagnostics, forallb_app,
      forallb_diagnostics by reflexivity.
    split; [exists []|]; reflexivity. }
  rewrite (run_paths w exe opts p0 rest0 Hno). cbn [snd].
  rewrite queried_app, queried_diagnostics, forallb_app,
    forallb_diagnostics by reflexivity.
  cbn [app andb]. split.
  - apply stat_loop_queried_prefix.
  - apply stat_loop_forallb; try reflexivity.
    intros p. destruct (dereference opts); reflexivity.
Qed.

(** Where [readlink] is called. *)
Lemma stat_loop_readlink (w : world) (follow : bool) (q : string) :
  forall args rc g,
    In (Call_readlink q)
       (snd (stat_loop w (if follow then stat w else lstat w) rc args g)) ->
    In q args /\
    exists fi, query w follow q = Ok fi /\ is_symlink (st_mode fi) = true.
Proof.
  induction args as [|p rest IH]; intros rc g Hin; [destruct Hin|].
  destruct (Z.eq_dec rc 0) as [->|Hrc];
    [|rewrite stat_loop_stopped in Hin by exact Hrc; destruct Hin].
  rewrite stat_loop_step in Hin.
  destruct (query w follow p) as [fi|e] eqn:Hq; cbn [snd] in Hin.
  - apply in_app_or in Hin as [Hturn|Hrest].
    + destruct Hturn as [Hcall|Hturn];
        [destruct follow; discriminate Hcall|].
      apply in_app_or in Hturn as [Hid|Hrec].
      * unfold identity_step in Hid.
        destruct (is_symlink (st_mode fi)) eqn:Hsym.
        -- assert (Hpq : p = q).
           { destruct (sys_readlink w p); cbn [snd] in Hid;
               destruct Hid as [H|[H|[]]];
               (injection H as H; exact H) || discriminate H. }
           subst q. split; [left; reflexivity|]. exists fi. split; assumption.
        -- destruct Hid as [H|[]]. discriminate H.
      * unfold record_events in Hrec.
        repeat (destruct Hrec as [H|Hrec]; [discriminate H|]). destruct Hrec.
    + destruct (IH _ _ Hrest) as [Hq' Hfi]. split; [right; exact Hq'|exact Hfi].
  - apply in_app_or in Hin as [Hturn|Hrest].
    + destruct Hturn as [Hcall|[H|[]]];
        [destruct follow; discriminate Hcall|discriminate H].
    + destruct (IH _ _ Hrest) as [Hq' Hfi]. split; [right; exact Hq'|exact Hfi].
Qed.

(** X4.  [readlink] is called on a path only when it is one of the path
    arguments and its query has succeeded and reported a symbolic link. *)
Theorem readlink_only_on_symlinks (w : world) (exe : string)
        (opts : list ascii) (paths : list string) (q : string) :
  In (Call_readlink q) (trace w exe opts paths) ->
  In q paths /\
  exists fi, query w (dereference opts) q = Ok fi /\
             is_symlink (st_mode fi) = true.
Proof.
  unfold trace.
  destruct (in_dec ascii_dec "h"%char opts) as [Hh|Hno].
  { rewrite (run_help w exe opts paths Hh). cbn [snd]. intros Hin.
    apply in_app_or in Hin as [Hd|[H|[]]]; [|discriminate H].
    apply in_diagnostics in Hd. discriminate Hd. }
  destruct paths as [|p0 rest0].
  { rewrite (run_no_paths w exe opts Hno). cbn [snd]. intros Hin.
    apply in_app_or in Hin as [Hd|[H|[H|[]]]]; try discriminate H.
    apply in_diagnostics in Hd. discriminate Hd. }
  rewrite (run_paths w exe opts p0 rest0 Hno). cbn [snd]. intros Hin.
  apply in_app_or in Hin as [Hd|Hloop].
  - apply in_diagnostics in Hd. discriminate Hd.
  - exact (stat_loop_readlink w (dereference opts) q _ _ _ Hloop).
Qed.

Lemma readlink_only_on_symlinks_witness :
  In (Call_readlink "/bin")
     (trace Example.system "stat" [] ["/"; "/bin"; "/etc/passwd"]) /\
  In "/bin" ["/"; "/bin"; "/etc/passwd"] /\
  exists fi, query Example.system (dereference []) "/bin" = Ok fi /\
             is_symlink (st_mode fi) = true.
Proof.
  assert (H : In (Call_readlink "/bin")
                 (trace Example.system "stat" [] ["/"; "/bin"; "/etc/passwd"]))
    by (vm_compute; tauto).
  split; [exact H|].
  exact (readlink_only_on_symlinks Example.system "stat" []
           ["/"; "/bin"; "/etc/passwd"] "/bin" H).
Defined.

Lemma stderr_identity_step w p fi g :
  filter is_stderr (snd (identity_step w p fi g)) = [].
Proof.
  unfold identity_step.
  destruct (is_symlink (st_mode fi)); [|reflexivity].
  destruct (sys_readlink w p); reflexivity.
Qed.

Lemma stderr_call follow p (t : list event) :
  filter is_stderr (call follow p :: t) = filter is_stderr t.
Proof. destruct follow; reflexivity. Qed.

Lemma stat_loop_all_ok_quiet (w : world) (follow : bool) :
  forall args g,
    (forall p, In p args -> exists fi, query w follow p = Ok fi) ->
    filter is_stderr
      (snd (stat_loop w (if follow then stat w else lstat w) 0 args g)) = [].
Proof.
  induction args as [|p rest IH]; intros g Hall; [reflexivity|].
  destruct (Hall p (or_introl eq_refl)) as [fi Hq].
  rewrite stat_loop_step, Hq. cbn [snd].
  rewrite <- app_comm_cons, stderr_call, !filter_app, stderr_identity_step.
  rewrite (IH _ (fun q Hin => Hall q (or_intror Hin))). reflexivity.
Qed.

(** X5.  When the query of every path argument succeeds, every path is
    queried, once and in the order given; each gets its five pieces of
    text on standard output (identity line, size and device lines, their
    ending, permissions line, timestamp lines); and the error stream
    holds nothing but the diagnostics of [getopt_long] for unknown
    options, none when there is no such option. *)
Theorem every_path_is_reported (w : world) (exe : string)
        (opts : list ascii) (paths : list string) :
  no_help opts ->
  paths <> [] ->
  (forall p, In p paths -> exists fi, query w (dereference opts) p = Ok fi) ->
  queried (trace w exe opts paths) = paths /\
  List.length (filter is_stdout (trace w exe opts paths)) =
    (5 * List.length paths)%nat /\
  filter is_stderr (trace w exe opts paths) = diagnostics w opts.
Proof.
  intros Hno Hne Hall. destruct paths as [|p rest]; [congruence|].
  unfold trace. rewrite (run_paths w exe opts p rest Hno). cbn [snd].
  destruct (stat_loop_all_ok_run w (dereference opts) (p :: rest) (initial w) Hall)
    as (g1 & tr & Hloop & Hq & Hlen & _).
  pose proof (stat_loop_all_ok_quiet w (dereference opts) (p :: rest)
                (initial w) Hall) as Hquiet.
  rewrite Hloop in *. cbn [snd] in *.
  rewrite queried_app, queried_diagnostics, !filter_app, stdout_diagnostics,
    stderr_diagnostics, Hquiet, app_nil_r.
  split; [exact Hq|]. split; [exact Hlen|reflexivity].
Qed.

Lemma every_path_is_reported_witness :
  no_help ["L"; "z"]%char /\
  ["/bin"; "/dev/null"; "/tmp"] <> [] /\
  (forall p, In p ["/bin"; "/dev/null"; "/tmp"] ->
     exists fi, query Example.system (dereference ["L"; "z"]%char) p = Ok fi) /\
  queried (trace Example.system "stat" ["L"; "z"]%char ["/bin"; "/dev/null"; "/tmp"]) =
    ["/bin"; "/dev/null"; "/tmp"] /\
  List.length (filter is_stdout
                 (trace Example.system "stat" ["L"; "z"]%char
                        ["/bin"; "/dev/null"; "/tmp"])) = 15%nat /\
  filter is_stderr (trace Example.system "stat" ["L"; "z"]%char
                          ["/bin"; "/dev/null"; "/tmp"]) =
    [Stderr "stat: illegal option -- z
"].
Proof.
  assert (Hno : no_help ["L"; "z"]%char) by (intros [H|[H|[]]]; discriminate H).
  assert (Hne : ["/bin"; "/dev/null"; "/tmp"] <> []) by discriminate.
  assert (Hall : forall p, In p ["/bin"; "/dev/null"; "/tmp"] ->
            exists fi, query Example.system (dereference ["L"; "z"]%char) p = Ok fi)
    by (intros p [<-|[<-|[<-|[]]]]; eexists; reflexivity).
  destruct (every_path_is_reported Example.system "stat" ["L"; "z"]%char
              ["/bin"; "/dev/null"; "/tmp"] Hno Hne Hall) as (Hq & Hl & He).
  split; [exact Hno|]. split; [exact Hne|]. split; [exact Hall|].
  split; [exact Hq|]. split; [exact Hl|exact He].
Defined.

Lemma stat_loop_success (w : world) (follow : bool) :
  forall args g,
    (forall p e, In p args -> query w follow p = Err e -> perror_errno w e <> 0) ->
    let r := stat_loop w (if follow then stat w else lstat w) 0 args g in
    (fst (fst r) = 0 <-> forall p, In p args -> exists fi, query w follow p = Ok fi) /\
    (fst (fst r) = 0 <-> filter is_stderr (snd r) = []) /\
    (List.length (filter is_stderr (snd r)) <= 1)%nat.
Proof.
  induction args as [|p rest IH]; intros g Hcodes.
  - cbv zeta. cbn. repeat split; auto. intros _ p [].
  - cbv zeta. rewrite stat_loop_step.
    destruct (query w follow p) as [fi|e] eqn:Hq; cbn [fst snd].
    + destruct (IH (fst (identity_step w p fi (stamped w fi g)))
                   (fun q e Hin => Hcodes q e (or_intror Hin))) as (Hok & Herr & Hlen).
      cbv zeta in Hok, Herr, Hlen.
      rewrite <- app_comm_cons, stderr_call, !filter_app, stderr_identity_step.
      cbn [record_events filter is_stderr app].
      split; [|split; assumption].
      rewrite Hok. split.
      * intros Hall q [<-|Hin]; [exists fi; exact Hq|apply Hall; exact Hin].
      * intros Hall q Hin. apply Hall. right. exact Hin.
    + assert (He : perror_errno w e <> 0)
        by (apply (Hcodes p e); [left; reflexivity|exact Hq]).
      rewrite stat_loop_stopped by exact He. cbn [fst snd app filter is_stderr].
      split; [|split].
      * split; [intros H0; contradiction|].
        intros Hall. destruct (Hall p (or_introl eq_refl)) as [fi Hfi]. congruence.
      * split; [intros H0; contradiction|]. destruct follow; discriminate.
      * destruct follow; cbn; lia.
Qed.

(** X6.  When [main] never reads a zero status after a failed query, a
    run on path arguments exits with 0 exactly when the query of every
    path argument succeeds.  Beside the diagnostics of [getopt_long] for
    unknown options, the error stream then holds at most one report of
    a failed query, and none exactly when the exit status is 0. *)
Theorem success_means_every_query_succeeded (w : world) (exe : string)
        (opts : list ascii) (paths : list string) :
  no_help opts ->
  paths <> [] ->
  (forall p e, In p paths -> query w (dereference opts) p = Err e ->
               perror_errno w e <> 0) ->
  (exit_status w exe opts paths = 0 <->
   forall p, In p paths -> exists fi, query w (dereference opts) p = Ok fi) /\
  exists reports,
    filter is_stderr (trace w exe opts paths) =
      (diagnostics w opts ++ reports)%list /\
    (List.length reports <= 1)%nat /\
    (exit_status w exe opts paths = 0 <-> reports = []).
Proof.
  intros Hno Hne Hcodes. destruct paths as [|p rest]; [congruence|].
  unfold exit_status, trace. rewrite (run_paths w exe opts p rest Hno).
  cbn [fst snd].
  destruct (stat_loop_success w (dereference opts) (p :: rest) (initial w) Hcodes)
    as (Hok & Herr & Hlen).
  cbv zeta in Hok, Herr, Hlen.
  split; [exact Hok|].
  exists (filter is_stderr
            (snd (stat_loop w (if dereference opts then stat w else lstat w) 0
                            (p :: rest) (initial w)))).
  rewrite filter_app, stderr_diagnostics.
  split; [reflexivity|]. split; [exact Hlen|exact Herr].
Qed.

Lemma success_means_every_query_succeeded_witness :
  no_help ["z"%char] /\
  ["/"; "/missing"; "/locked/file"] <> [] /\
  (forall p e, In p ["/"; "/missing"; "/locked/file"] ->
               query Example.system (dereference ["z"%char]) p = Err e ->
               perror_errno Example.system e <> 0) /\
  exit_status Example.system "stat" ["z"%char] ["/"; "/missing"; "/locked/file"]
  <> 0 /\
  exists reports,
    filter is_stderr
      (trace Example.system "stat" ["z"%char] ["/"; "/missing"; "/locked/file"]) =
    (diagnostics Example.system ["z"%char] ++ reports)%list /\
    (List.length reports <= 1)%nat.
Proof.
  assert (Hno : no_help ["z"%char]) by (intros [H|[]]; discriminate H).
  assert (Hne : ["/"; "/missing"; "/locked/file"] <> []) by discriminate.
  assert (Hcodes : forall p e, In p ["/"; "/missing"; "/locked/file"] ->
             query Example.system (dereference ["z"%char]) p = Err e ->
             perror_errno Example.system e <> 0).
  { intros p e [<-|[<-|[<-|[]]]] H; vm_compute in H;
      try discriminate H; injection H as <-; discriminate. }
  destruct (success_means_every_query_succeeded Example.system "stat" ["z"%char]
              ["/"; "/missing"; "/locked/file"] Hno Hne Hcodes)
    as (Hok & reports & Herr & Hlen & _).
  split; [exact Hno|]. split; [exact Hne|]. split; [exact Hcodes|].
  split.
  - intros H0. destruct (proj1 Hok H0 "/missing") as [fi Hfi];
      [simpl; tauto|discriminate Hfi].
  - exists reports. split; [exact Herr|exact Hlen].
Defined.

(** ** Types and permissions of a mode *)

Lemma land_land_mask (m mask sub : Z) :
  Z.land mask sub = sub -> Z.land (Z.land m mask) sub = Z.land m sub.
Proof. intros H. rewrite <- Z.land_assoc, H. reflexivity. Qed.

Lemma type_bits (m : Z) :
  Z.land m S_IFMT = 4096 * Z.land (Z.shiftr m 12) 15.
Proof.
  rewrite Z.mul_comm. change 4096 with (2 ^ 12).
  rewrite <- Z.shiftl_mul_pow2 by lia.
  change S_IFMT with (Z.shiftl 15 12).
  apply Z.bits_inj'. intros i Hi. rewrite Z.land_spec.
  destruct (Z.lt_ge_cases i 12) as [Hlow|Hhigh].
  - rewrite !Z.shiftl_spec_low by exact Hlow. apply andb_false_r.
  - rewrite !Z.shiftl_spec by exact Hi.
    rewrite Z.land_spec, Z.shiftr_spec by lia.
    replace (i - 12 + 12) with i by lia. reflexivity.
Qed.

Lemma type_nibble_range (m : Z) : 0 <= Z.land (Z.shiftr m 12) 15 < 16.
Proof.
  change 15 with (Z.ones 4). rewrite Z.land_ones by lia.
  apply Z.mod_pos_bound. reflexivity.
Qed.

(** A test on modes that looks at the type bits only holds of every
    mode once it holds of the sixteen values of the type bits. *)
Lemma by_type_bits (P : Z -> bool) :
  (forall m, P m = P (Z.land m S_IFMT)) ->
  range_all (fun k => P (4096 * k)) 0 16 = true ->
  forall m, P m = true.
Proof.
  intros Hmask Hall m. rewrite Hmask, type_bits.
  exact (range_all_spec (fun k => P (4096 * k)) 16 0 Hall _ (type_nibble_range m)).
Qed.

Lemma file_type_masked (m : Z) : file_type (Z.land m S_IFMT) = file_type m.
Proof. unfold file_type. rewrite land_land_mask by reflexivity. reflexivity. Qed.

Lemma file_type_char_masked (m : Z) :
  file_type_char (Z.land m S_IFMT) = file_type_char m.
Proof. unfold file_type_char. rewrite land_land_mask by reflexivity. reflexivity. Qed.

Lemma is_symlink_masked (m : Z) : is_symlink (Z.land m S_IFMT) = is_symlink m.
Proof. unfold is_symlink. rewrite land_land_mask by reflexivity. reflexivity. Qed.

Lemma is_device_type_masked (m : Z) :
  is_device_type (Z.land m S_IFMT) = is_device_type m.
Proof. unfold is_device_type. rewrite land_land_mask by reflexivity. reflexivity. Qed.

Lemma user_perms_masked (m : Z) : user_perms (Z.land m S_PERMS) = user_perms m.
Proof. unfold user_perms. rewrite !land_land_mask by reflexivity. reflexivity. Qed.

Lemma group_perms_masked (m : Z) : group_perms (Z.land m S_PERMS) = group_perms m.
Proof. unfold group_perms. rewrite !land_land_mask by reflexivity. reflexivity. Qed.

Lemma other_perms_masked (m : Z) : other_perms (Z.land m S_PERMS) = other_perms m.
Proof. unfold other_perms. rewrite !land_land_mask by reflexivity. reflexivity. Qed.

Lemma octal_field_masked (m : Z) : octal_field (Z.land m S_PERMS) = octal_field m.
Proof. unfold octal_field. rewrite land_land_mask by reflexivity. reflexivity. Qed.

Lemma perms_range (m : Z) : 0 <= Z.land m S_PERMS < 4096.
Proof.
  change S_PERMS with (Z.ones 12). rewrite Z.land_ones by lia.
  apply Z.mod_pos_bound. reflexivity.
Qed.

(** X7.  The label and the character of the type classify the modes alike:
    two modes have the same label exactly when they have the same type
    character. *)
Theorem label_and_character_agree (m m' : Z) :
  file_type m = file_type m' <-> file_type_char m = file_type_char m'.
Proof.
  assert (H : String.eqb (file_type m) (file_type m') =
              Ascii.eqb (file_type_char m) (file_type_char m')).
  { rewrite <- (file_type_masked m), <- (file_type_masked m'),
      <- (file_type_char_masked m), <- (file_type_char_masked m'), !type_bits.
    pose proof (type_nibble_range m) as Hk. pose proof (type_nibble_range m') as Hk'.
    pose proof (range_all_spec
      (fun k => range_all
         (fun k' => Bool.eqb
            (String.eqb (file_type (4096 * k)) (file_type (4096 * k')))
            (Ascii.eqb (file_type_char (4096 * k)) (file_type_char (4096 * k'))))
         0 16) 16 0 ltac:(vm_compute; reflexivity) _ Hk) as Hrow.
    cbv beta in Hrow.
    apply Bool.eqb_prop.
    exact (range_all_spec _ 16 0 Hrow _ Hk'). }
  rewrite <- String.eqb_eq, <- Ascii.eqb_eq, H. reflexivity.
Qed.

(** The device test agrees with the label: [is_device_type] holds
    exactly of the modes labelled character device or block device, and
    [is_symlink] exactly of those labelled symbolic link. *)
Lemma device_test_by_label (m : Z) :
  is_device_type m =
  (String.eqb (file_type m) "character device" ||
   String.eqb (file_type m) "block device") /\
  is_symlink m = String.eqb (file_type m) "symbolic link".
Proof.
  split; apply Bool.eqb_prop.
  - apply (by_type_bits
             (fun m => Bool.eqb (is_device_type m)
                         (String.eqb (file_type m) "character device" ||
                          String.eqb (file_type m) "block device")));
      [|vm_compute; reflexivity].
    intros x. rewrite is_device_type_masked, file_type_masked. reflexivity.
  - apply (by_type_bits
             (fun m => Bool.eqb (is_symlink m)
                         (String.eqb (file_type m) "symbolic link")));
      [|vm_compute; reflexivity].
    intros x. rewrite is_symlink_masked, file_type_masked. reflexivity.
Qed.

(** X8.  The record of a path whose query succeeds is five pieces of text in
    a fixed order: the identity line, the size and device lines, their
    ending, the permissions line and the timestamp lines.  The ending is
    the device type with the major and minor numbers exactly when the
    file is labelled character device or block device, and a bare
    newline otherwise; the identity line carries an arrow exactly when
    the file is labelled symbolic link. *)
Theorem record_layout (w : world) (follow : bool) (p : string) (rc : Z)
        (g : memory) (finfo : struct_stat) :
  query w follow p = Ok finfo ->
  exists identity,
    output (snd (stat_one w (if follow then stat w else lstat w) p rc g)) =
    [ Stdout identity;
      Stdout (size_text finfo);
      Stdout (if String.eqb (file_type (st_mode finfo)) "character device" ||
                 String.eqb (file_type (st_mode finfo)) "block device"
              then device_text w finfo else NL);
      Stdout (permissions_line w finfo);
      Stdout (times_text (stamped w finfo g)) ] /\
    (String.eqb (file_type (st_mode finfo)) "symbolic link" = false ->
     identity = identity_line p) /\
    (String.eqb (file_type (st_mode finfo)) "symbolic link" = true ->
     exists shown, identity = "  File: `" ++ p ++ "' -> " ++ shown ++ NL).
Proof.
  intros Hq. rewrite (stat_one_ok w follow p rc g finfo Hq). cbn [snd].
  rewrite output_call, output_app.
  destruct (device_test_by_label (st_mode finfo)) as [Hdev Hsym].
  unfold record_events. rewrite Hdev. unfold identity_step. rewrite Hsym.
  destruct (String.eqb (file_type (st_mode finfo)) "symbolic link").
  - destruct (sys_readlink w p) as [l|e]; cbn [snd output filter is_output app].
    + eexists. split; [reflexivity|]. split; [discriminate|]. intros _.
      exists ("`" ++
              cstr (take MAXPATHLEN l ++
                    drop (String.length (take MAXPATHLEN l))
                         (target (stamped w finfo g))) ++ "'").
      unfold identity_line_link. flatten. reflexivity.
    + eexists. split; [reflexivity|]. split; [discriminate|]. intros _.
      exists "<unable to read target>". reflexivity.
  - cbn [snd output filter is_output app].
    eexists. split; [reflexivity|]. split; [reflexivity|discriminate].
Qed.

Lemma record_layout_witness :
  query Example.system false "/dev/null" = Ok Example.null_device /\
  exists identity,
    output (snd (stat_one Example.system (lstat Example.system) "/dev/null" 0
                          (initial Example.system))) =
    [ Stdout identity;
      Stdout (size_text Example.null_device);
      Stdout (device_text Example.system Example.null_device);
      Stdout (permissions_line Example.system Example.null_device);
      Stdout (times_text (stamped Example.system Example.null_device
                                  (initial Example.system))) ] /\
    identity = identity_line "/dev/null".
Proof.
  assert (Hq : query Example.system false "/dev/null" = Ok Example.null_device)
    by reflexivity.
  split; [exact Hq|].
  destruct (record_layout Example.system false "/dev/null" 0
              (initial Example.system) Example.null_device Hq)
    as (identity & Hout & Hplain & _).
  exists identity. split; [exact Hout|]. apply Hplain. reflexivity.
Defined.

(** ** Types and permissions of a mode, continued *)

(** X9.  A mode renders with the type of any mode that has its type bits and
    with the permissions of any mode that has its low twelve bits: the
    type bits have no part in the permissions, nor the permission bits
    in the type. *)
Theorem rendering_depends_on_its_own_bits (m ty pm : Z) :
  Z.land m S_IFMT = Z.land ty S_IFMT ->
  Z.land m S_PERMS = Z.land pm S_PERMS ->
  (file_type m = file_type ty /\
   file_type_char m = file_type_char ty /\
   is_symlink m = is_symlink ty /\
   is_device_type m = is_device_type ty) /\
  (user_perms m = user_perms pm /\
   group_perms m = group_perms pm /\
   other_perms m = other_perms pm /\
   octal_field m = octal_field pm) /\
  symbolic_mode m =
  String (file_type_char ty)
         (user_perms pm ++ group_perms pm ++ other_perms pm).
Proof.
  intros Hty Hpm.
  assert (Ht : (file_type m = file_type ty /\
                file_type_char m = file_type_char ty /\
                is_symlink m = is_symlink ty /\
                is_device_type m = is_device_type ty)).
  { rewrite <- (file_type_masked m), <- (file_type_char_masked m),
      <- (is_symlink_masked m), <- (is_device_type_masked m), Hty.
    rewrite file_type_masked, file_type_char_masked, is_symlink_masked,
      is_device_type_masked. repeat split; reflexivity. }
  assert (Hp : (user_perms m = user_perms pm /\
                group_perms m = group_perms pm /\
                other_perms m = other_perms pm /\
                octal_field m = octal_field pm)).
  { rewrite <- (user_perms_masked m), <- (group_perms_masked m),
      <- (other_perms_masked m), <- (octal_field_masked m), Hpm.
    rewrite user_perms_masked, group_perms_masked, other_perms_masked,
      octal_field_masked. repeat split; reflexivity. }
  split; [exact Ht|]. split; [exact Hp|].
  destruct Ht as (_ & Hc & _). destruct Hp as (Hu & Hg & Ho & _).
  unfold symbolic_mode. rewrite Hc, Hu, Hg, Ho. reflexivity.
Qed.

Lemma rendering_depends_on_its_own_bits_witness :
  Z.land 0xA9ED S_IFMT = Z.land 0xA000 S_IFMT /\
  Z.land 0xA9ED S_PERMS = Z.land 0x89ED S_PERMS /\
  file_type 0xA9ED = file_type 0xA000 /\
  symbolic_mode 0xA9ED =
  String (file_type_char 0xA000)
         (user_perms 0x89ED ++ group_perms 0x89ED ++ other_perms 0x89ED).
Proof.
  assert (Hty : Z.land 0xA9ED S_IFMT = Z.land 0xA000 S_IFMT) by reflexivity.
  assert (Hpm : Z.land 0xA9ED S_PERMS = Z.land 0x89ED S_PERMS) by reflexivity.
  destruct (rendering_depends_on_its_own_bits 0xA9ED 0xA000 0x89ED Hty Hpm)
    as ((Hf & _) & _ & Hs).
  split; [exact Hty|]. split; [exact Hpm|]. split; [exact Hf|exact Hs].
Defined.

(** X10.  The octal field and the symbolic mode tell the same access bits:
    each octal digit is the value of its triplet, with r as 4, w as 2
    and x, or the s that stands for x with setuid or setgid, as 1. *)
Theorem octal_field_matches_symbolic_mode (m : Z) :
  octal_field m =
  String "0" (str3 (digit_char (triplet_digit (user_perms m)))
                   (digit_char (triplet_digit (group_perms m)))
                   (digit_char (triplet_digit (other_perms m)))).
Proof.
  rewrite <- (octal_field_masked m), <- (user_perms_masked m),
    <- (group_perms_masked m), <- (other_perms_masked m).
  apply String.eqb_eq.
  apply (range_all_spec
           (fun v => String.eqb (octal_field v)
              (String "0" (str3 (digit_char (triplet_digit (user_perms v)))
                                (digit_char (triplet_digit (group_perms v)))
                                (digit_char (triplet_digit (other_perms v))))))
           4096 0); [vm_compute; reflexivity|apply perms_range].
Qed.

(** ** Numbers and their digits *)

Lemma digit_value_digit_char (d : Z) :
  0 <= d < 16 -> digit_value (digit_char d) = d.
Proof.
  intros Hd. apply Z.eqb_eq.
  apply (range_all_spec (fun d => digit_value (digit_char d) =? d) 16 0);
    [reflexivity|exact Hd].
Qed.

Lemma digit_char_not_minus (d : Z) :
  0 <= d < 16 -> Ascii.eqb (digit_char d) "-" = false.
Proof.
  intros Hd. apply negb_true_iff.
  apply (range_all_spec (fun d => negb (Ascii.eqb (digit_char d) "-")) 16 0);
    [reflexivity|exact Hd].
Qed.

Lemma digits_value_app (base acc : Z) (s1 s2 : string) :
  digits_value base acc (s1 ++ s2) =
  digits_value base (digits_value base acc s1) s2.
Proof.
  revert acc. induction s1 as [|c s1 IH]; intros acc; [reflexivity|].
  simpl. apply IH.
Qed.

(** The digits come out before what was accumulated. *)
Lemma digits_aux_acc (base : Z) (fuel : nat) :
  forall n acc, digits_aux base fuel n acc = digits_aux base fuel n "" ++ acc.
Proof.
  induction fuel as [|f IH]; intros n acc; [reflexivity|].
  cbn [digits_aux]. destruct (n / base =? 0); [reflexivity|].
  rewrite (IH (n / base) (String _ acc)), (IH (n / base) (String _ "")).
  rewrite append_assoc. reflexivity.
Qed.

Lemma digits_aux_head (base : Z) (fuel : nat) :
  0 < base ->
  forall n acc, exists d rest,
    0 <= d < base /\ digits_aux base fuel n acc = String (digit_char d) rest.
Proof.
  intros Hb. induction fuel as [|f IH]; intros n acc.
  - exists (n mod base), acc. split; [apply Z.mod_pos_bound; exact Hb|reflexivity].
  - cbn [digits_aux]. destruct (n / base =? 0).
    + exists (n mod base), acc.
      split; [apply Z.mod_pos_bound; exact Hb|reflexivity].
    + apply IH.
Qed.

(** With fuel for its digits, a number is read back from them. *)
Lemma digits_aux_value (base : Z) :
  2 <= base <= 16 ->
  forall fuel n,
    0 <= n < base ^ Z.of_nat (S fuel) ->
    digits_value base 0 (digits_aux base fuel n "") = n.
Proof.
  intros Hb. induction fuel as [|f IH]; intros n Hn.
  - change (Z.of_nat 1) with 1 in Hn. rewrite Z.pow_1_r in Hn.
    cbn [digits_aux digits_value]. rewrite Z.mod_small by exact Hn.
    rewrite digit_value_digit_char by lia. lia.
  - cbn [digits_aux]. destruct (n / base =? 0) eqn:Hq.
    + apply Z.eqb_eq in Hq.
      assert (Hsmall : n < base).
      { pose proof (Z.div_mod n base ltac:(lia)) as Hdm.
        pose proof (Z.mod_pos_bound n base ltac:(lia)). nia. }
      cbn [digits_value]. rewrite Z.mod_small by lia.
      rewrite digit_value_digit_char by lia. lia.
    + rewrite digits_aux_acc, digits_value_app.
      rewrite IH.
      * cbn [digits_value].
        rewrite digit_value_digit_char
          by (pose proof (Z.mod_pos_bound n base ltac:(lia)); lia).
        pose proof (Z.div_mod n base ltac:(lia)). lia.
      * split; [apply Z.div_pos; lia|].
        apply Z.div_lt_upper_bound; [lia|].
        rewrite (Nat2Z.inj_succ (S f)), Z.pow_succ_r in Hn by lia. lia.
Qed.

Lemma enough_fuel (base n : Z) :
  2 <= base -> 0 <= n ->
  n < base ^ Z.of_nat (S (Z.to_nat (Z.log2 n))).
Proof.
  intros Hb Hn.
  rewrite Nat2Z.inj_succ, Z2Nat.id by apply Z.log2_nonneg.
  destruct (Z.eq_dec n 0) as [->|Hpos].
  - apply Z.pow_pos_nonneg; [lia|]. cbn. lia.
  - apply Z.lt_le_trans with (2 ^ Z.succ (Z.log2 n)).
    + apply Z.log2_spec. lia.
    + apply Z.pow_le_mono_l. pose proof (Z.log2_nonneg n). lia.
Qed.

Lemma unsigned_digits_value (base n : Z) :
  2 <= base <= 16 -> 0 <= n ->
  digits_value base 0 (unsigned_digits base n) = n.
Proof.
  intros Hb Hn. unfold unsigned_digits.
  apply (digits_aux_value base Hb). split; [exact Hn|].
  apply enough_fuel; lia.
Qed.

(** X12.  The numbers of the record are printed in full: reading the digits
    of [%d] and [%lld] back gives the number, negative or not, and
    reading those of [%x] and [%o] gives its value as an unsigned int.
    No field loses digits, however large the number. *)
Theorem numbers_are_printed_in_full (n : Z) :
  read_d (fmt_d n) = n /\
  digits_value 16 0 (fmt_x n) = cast_uint n /\
  digits_value 8 0 (fmt_o n) = cast_uint n.
Proof.
  assert (Hu : 0 <= cast_uint n)
    by (unfold cast_uint; apply Z.mod_pos_bound; reflexivity).
  split; [|split; apply unsigned_digits_value; lia].
  unfold fmt_d. destruct (n <? 0) eqn:Hneg.
  - apply Z.ltb_lt in Hneg. cbn [append read_d Ascii.eqb Bool.eqb].
    rewrite unsigned_digits_value by lia. lia.
  - apply Z.ltb_ge in Hneg. unfold unsigned_digits.
    destruct (digits_aux_head 10 (Z.to_nat (Z.log2 n)) ltac:(lia) n "")
      as (d & rest & Hd & Heq).
    pose proof (unsigned_digits_value 10 n ltac:(lia) Hneg) as Hval.
    unfold unsigned_digits in Hval. rewrite Heq in *.
    cbn [read_d]. rewrite digit_char_not_minus by lia. exact Hval.
Qed.

(** ** Field widths *)

Lemma length_append (a b : string) :
  String.length (a ++ b) = (String.length a + String.length b)%nat.
Proof. induction a as [|c a IH]; [reflexivity|]. simpl. rewrite IH. reflexivity. Qed.

(** A number below [base ^ (k + 1)] has at most [k + 1] digits. *)
Lemma digits_aux_length (base : Z) :
  2 <= base ->
  forall fuel n k,
    0 <= n < base ^ Z.of_nat (S k) ->
    (String.length (digits_aux base fuel n "") <= S k)%nat.
Proof.
  intros Hb. induction fuel as [|f IH]; intros n k Hn.
  - cbn. lia.
  - cbn [digits_aux]. destruct (n / base =? 0) eqn:Hq; [cbn; lia|].
    apply Z.eqb_neq in Hq.
    destruct k as [|k].
    + exfalso. apply Hq. apply Z.div_small.
      change (Z.of_nat 1) with 1 in Hn. rewrite Z.pow_1_r in Hn. exact Hn.
    + rewrite digits_aux_acc, length_append. cbn [String.length].
      assert (Hdiv : 0 <= n / base < base ^ Z.of_nat (S k)).
      { split; [apply Z.div_pos; lia|].
        apply Z.div_lt_upper_bound; [lia|].
        rewrite (Nat2Z.inj_succ (S k)), Z.pow_succ_r in Hn by lia. lia. }
      pose proof (IH (n / base) k Hdiv). lia.
Qed.

Lemma small_decimal_length (n : Z) :
  0 <= n < 100000 -> (String.length (fmt_d n) <= 5)%nat.
Proof.
  intros Hn. unfold fmt_d.
  replace (n <? 0) with false by (symmetry; apply Z.ltb_ge; lia).
  apply (digits_aux_length 10 ltac:(lia) _ n 4). exact Hn.
Qed.

Lemma replicate_length (n : nat) (c : ascii) : String.length (replicate n c) = n.
Proof. induction n as [|n IH]; [reflexivity|]. simpl. rewrite IH. reflexivity. Qed.

Lemma pad_left_length (c : ascii) (w : nat) (s : string) :
  String.length (pad_left c w s) = Nat.max w (String.length s).
Proof. unfold pad_left. rewrite length_append, replicate_length. lia. Qed.

Lemma cast_int_small (n : Z) : - 2 ^ 31 <= n < 2 ^ 31 -> cast_int n = n.
Proof. intros Hn. unfold cast_int. rewrite Z.mod_small; lia. Qed.

Lemma octal_field_length (m : Z) : String.length (octal_field m) = 4%nat.
Proof. rewrite octal_field_digits. reflexivity. Qed.

Lemma id_field_length (id : Z) (name : string) :
  String.length (id_field id name) =
  (3 + Nat.max 5 (String.length (fmt_d (cast_int id)))
     + Nat.max 8 (String.length name))%nat.
Proof.
  unfold id_field. rewrite !length_append, !pad_left_length.
  cbn [String.length]. lia.
Qed.

Lemma permissions_line_length (w : world) (finfo : struct_stat) :
  String.length (permissions_line w finfo) =
  (41 + String.length (id_field (st_uid finfo) (get_uid_string w (st_uid finfo)))
      + String.length (id_field (st_gid finfo) (get_gid_string w (st_gid finfo))))%nat.
Proof.
  unfold permissions_line.
  change (String (file_type_char (st_mode finfo))
            (user_perms (st_mode finfo) ++ group_perms (st_mode finfo) ++
             other_perms (st_mode finfo)))
    with (symbolic_mode (st_mode finfo)).
  rewrite !length_append, octal_field_length, symbolic_mode_length.
  cbn [String.length NL]. lia.
Qed.

(** X11.  The columns of the permissions line: with owner ids below 100000
    and names of at most eight characters the line has 73 characters,
    whatever the mode, so that the fields of successive records stand
    under one another. *)
Theorem permissions_line_is_aligned (w : world) (finfo : struct_stat) :
  0 <= st_uid finfo < 100000 ->
  0 <= st_gid finfo < 100000 ->
  (String.length (get_uid_string w (st_uid finfo)) <= 8)%nat ->
  (String.length (get_gid_string w (st_gid finfo)) <= 8)%nat ->
  String.length (permissions_line w finfo) = 73%nat.
Proof.
  intros Hu Hg Hun Hgn.
  rewrite permissions_line_length, !id_field_length.
  change (2 ^ 31) with 2147483648 in *.
  rewrite !cast_int_small by (change (2 ^ 31) with 2147483648; lia).
  pose proof (small_decimal_length _ Hu). pose proof (small_decimal_length _ Hg).
  lia.
Qed.

(** ** The exit status *)

Lemma stat_loop_status_source (w : world) (follow : bool) :
  forall args rc g,
    let rc' := fst (fst (stat_loop w (if follow then stat w else lstat w)
                                   rc args g)) in
    rc' = rc \/
    exists p e, In p args /\ query w follow p = Err e /\ rc' = perror_errno w e.
Proof.
  induction args as [|p rest IH]; intros rc g; [left; reflexivity|].
  destruct (Z.eq_dec rc 0) as [->|Hrc];
    [|cbv zeta; rewrite stat_loop_stopped by exact Hrc; left; reflexivity].
  cbv zeta. rewrite stat_loop_step.
  destruct (query w follow p) as [fi|e] eqn:Hq; cbn [fst snd].
  - destruct (IH 0 (fst (identity_step w p fi (stamped w fi g))))
      as [H0|(q & e & Hin & Hfail & Hrc)]; [left; exact H0|].
    right. exists q, e. split; [right; exact Hin|split; assumption].
  - destruct (IH (perror_errno w e) (set_errno (perror_errno w e) g))
      as [He|(q & e' & Hin & Hfail & Hrc)].
    + right. exists p, e. split; [left; reflexivity|]. split; [exact Hq|exact He].
    + right. exists q, e'. split; [right; exact Hin|split; assumption].
Qed.

(** X14.  The exit status is never anything but 0, EINVAL when there is
    no path argument, or the value that [main] reads from [errno] after
    [perror] has reported the failed query of one of the path arguments:
    the error code of that query when [perror] leaves it there. *)
Theorem exit_status_values (w : world) (exe : string) (opts : list ascii)
        (paths : list string) :
  exit_status w exe opts paths = 0 \/
  (paths = [] /\ exit_status w exe opts paths = EINVAL) \/
  exists p e, In p paths /\
              query w (dereference opts) p = Err e /\
              exit_status w exe opts paths = perror_errno w e.
Proof.
  unfold exit_status.
  destruct (in_dec ascii_dec "h"%char opts) as [Hh|Hno].
  { rewrite (run_help w exe opts paths Hh). left. reflexivity. }
  destruct paths as [|p0 rest0].
  { rewrite (run_no_paths w exe opts Hno). right. left. split; reflexivity. }
  rewrite (run_paths w exe opts p0 rest0 Hno). cbn [fst].
  destruct (stat_loop_status_source w (dereference opts) (p0 :: rest0) 0 (initial w))
    as [H0|Hfail]; [left; exact H0|right; right; exact Hfail].
Qed.

Lemma symlink_rendering_witness :
  sys_lstat Example.system "/bin" = Ok Example.bin_link /\
  is_symlink (st_mode Example.bin_link) = true /\
  run Example.system "stat" [] ["/bin"] =
    (0, ([Call_lstat "/bin"; Call_readlink "/bin";
          Stdout (identity_line_link "/bin" "./usr/bin")] ++
         record_events Example.system Example.bin_link
           (stamped Example.system Example.bin_link (initial Example.system)))%list) /\
  run Example.system "stat" ["L"%char] ["/bin"] =
    (0, ([Call_stat "/bin"; Stdout (identity_line "/bin")] ++
         record_events Example.system Example.usr_bin
           (stamped Example.system Example.usr_bin (initial Example.system)))%list).
Proof.
  assert (Hl : sys_lstat Example.system "/bin" = Ok Example.bin_link) by reflexivity.
  assert (Hs : is_symlink (st_mode Example.bin_link) = true) by reflexivity.
  destruct (symlink_rendering Example.system "stat" "/bin" Example.bin_link Hl Hs)
    as (_ & Hread & _ & Hderef).
  assert (Hlen : (String.length "./usr/bin" <= MAXPATHLEN)%nat)
    by (apply Nat.leb_le; reflexivity).
  split; [exact Hl|]. split; [exact Hs|]. split.
  - exact (Hread "./usr/bin" eq_refl eq_refl Hlen).
  - exact (Hderef Example.usr_bin eq_refl eq_refl).
Defined.

Lemma permissions_line_is_aligned_witness :
  0 <= st_uid Example.null_device < 100000 /\
  0 <= st_gid Example.null_device < 100000 /\
  (String.length (get_uid_string Example.system (st_uid Example.null_device)) <= 8)%nat /\
  (String.length (get_gid_string Example.system (st_gid Example.null_device)) <= 8)%nat /\
  String.length (permissions_line Example.system Example.null_device) = 73%nat.
Proof.
  assert (Hu : 0 <= st_uid Example.null_device < 100000) by (cbn; lia).
  assert (Hg : 0 <= st_gid Example.null_device < 100000) by (cbn; lia).
  assert (Hun : (String.length (get_uid_string Example.system
                                  (st_uid Example.null_device)) <= 8)%nat)
    by (apply Nat.leb_le; reflexivity).
  assert (Hgn : (String.length (get_gid_string Example.system
                                  (st_gid Example.null_device)) <= 8)%nat)
    by (apply Nat.leb_le; reflexivity).
  split; [exact Hu|]. split; [exact Hg|]. split; [exact Hun|]. split; [exact Hgn|].
  exact (permissions_line_is_aligned Example.system Example.null_device Hu Hg Hun Hgn).
Defined.

(** X15.  When the owner's user id, or group id, has an entry in its identity
    database, the permissions line prints the numeric id and the name of
    the entry, whole, right-justified in eight columns when it is
    shorter. *)
Theorem resolved_id_prints_its_name (w : world) (finfo : struct_stat)
        (k : id_kind) (name : string) :
  id_entry w k (owner_id k finfo) = Some name ->
  exists before after,
    permissions_line w finfo =
    before ++ id_label k ++
    "(" ++ pad_left " " 5 (fmt_d (cast_int (owner_id k finfo))) ++ "/" ++
    replicate (8 - String.length name) " " ++ name ++ ")" ++ after.
Proof.
  intros H. destruct k; cbn [id_entry owner_id id_label] in *.
  - exists ("Access: (" ++ octal_field (st_mode finfo) ++ "/" ++
            symbolic_mode (st_mode finfo) ++ ")  "),
           ("   Gid: " ++
            id_field (st_gid finfo) (get_gid_string w (st_gid finfo)) ++ NL).
    unfold permissions_line, symbolic_mode, id_field at 1, get_uid_string, pad_left at 2.
    rewrite H. flatten. reflexivity.
  - exists ("Access: (" ++ octal_field (st_mode finfo) ++ "/" ++
            symbolic_mode (st_mode finfo) ++ ")  Uid: " ++
            id_field (st_uid finfo) (get_uid_string w (st_uid finfo)) ++ "   "),
           NL.
    unfold permissions_line, symbolic_mode, id_field at 2, get_gid_string, pad_left at 2.
    rewrite H. flatten. reflexivity.
Qed.

Lemma resolved_id_prints_its_name_witness :
  id_entry Example.system Group (owner_id Group Example.null_device) = Some "sys" /\
  exists before after,
    permissions_line Example.system Example.null_device =
    before ++ id_label Group ++
    "(" ++ pad_left " " 5 (fmt_d (cast_int (owner_id Group Example.null_device))) ++
    "/" ++ replicate (8 - String.length "sys") " " ++ "sys" ++ ")" ++ after.
Proof.
  assert (H : id_entry Example.system Group (owner_id Group Example.null_device)
              = Some "sys") by reflexivity.
  split; [exact H|].
  exact (resolved_id_prints_its_name Example.system Example.null_device Group "sys" H).
Defined.
